(** * daemon-merging: the auto-merge helpers, embedded and checked

    A shallow embedding of [src/helpers/github.ts] and
    [src/helpers/update-pull-requests.ts].

    The helpers are glue around external collaborators (the hosting API,
    the store of tracked pull requests, the logger).  A run is modelled by
    the sequence of requests and log lines it produces, in order, together
    with the way it settles: every [async] function becomes a value of the
    monad [M], a pair of a trace and an outcome.  What the collaborators
    answer is read from the [Context], as the source does. *)

From Stdlib Require Import String Ascii List ZArith Lia Bool Arith.
Import ListNotations.

Local Open Scope string_scope.
Local Open Scope list_scope.

(** Concatenation of strings, as in a template literal. *)
Infix "+++" := String.append (right associativity, at level 60).

(** ** Strings *)

(** [s.split(sep)] for a separator of one character: the result is never
    empty, and an empty segment stands between two adjacent separators. *)
Fixpoint split (sep : ascii) (s : string) : list string :=
  match s with
  | EmptyString => [EmptyString]
  | String c rest =>
      if Ascii.eqb c sep then EmptyString :: split sep rest
      else match split sep rest with
           | [] => [String c EmptyString]
           | seg :: segs => String c seg :: segs
           end
  end.

(** [l.join(sep)]. *)
Fixpoint join (sep : string) (l : list string) : string :=
  match l with
  | [] => EmptyString
  | [x] => x
  | x :: rest => x +++ sep +++ join sep rest
  end.

(** Truthiness of a value of type [string | null | undefined]. *)
Definition truthy (s : option string) : bool :=
  match s with
  | Some EmptyString | None => false
  | Some _ => true
  end.

(** [a || b] on such values, the right operand being a string. *)
Definition or_else (a : option string) (b : string) : string :=
  match a with
  | Some (String c r) => String c r
  | _ => b
  end.

Definition slash : ascii := "/"%char.

(** ** Exceptions and settled promises *)

Record exn := mkExn { exn_name : string; exn_message : string }.

(** [new Error(message)]. *)
Definition Error (message : string) : exn := mkExn "Error" message.

(** The error of the package ts-retry when the attempts are used up. *)
Definition TooManyTries : exn :=
  Error "function did not complete within allowed number of attempts".

Inductive outcome (A : Type) : Type :=
| Resolved (a : A)
| Rejected (e : exn).
Arguments Resolved {A} a.
Arguments Rejected {A} e.

(** ** Dates

    A [Date] is its time value in milliseconds, or [None] for an invalid
    date (time value [NaN]). *)
Definition Date := option Z.

(** [new Date(t)] for a finite number [t]. *)
Definition TimeClip (t : Z) : Date :=
  if (Z.abs t <=? 8640000000000000)%Z then Some t else None.

Definition isNaN (d : Date) : bool :=
  match d with None => true | Some _ => false end.

(** [new Date(Math.max(...times))]: [Math.max()] of no argument is
    [-Infinity], which is no valid time value. *)
Definition maxDate (times : list Z) : Date :=
  match times with
  | [] => None
  | t :: ts => TimeClip (fold_left Z.max ts t)
  end.

(** ** Data of the hosting API *)

Record Review := mkReview { review_state : string }.

Record CheckSuite := mkCheckSuite { suite_id : Z; suite_url : string }.

Record CheckRun := mkCheckRun {
  run_name : string;
  run_id : Z;
  run_url : string;
  run_status : string;
  run_conclusion : option string }.

(** The fields of a timeline event that the orchestrator probes. *)
Record IssueEvent := mkIssueEvent {
  created_at : option string;
  updated_at : option string;
  timestamp : option string;
  commented_at : option string }.

Record PullRequest := mkPullRequest {
  merged : bool;
  closed_at : option string;
  author_association : string;
  head_sha : string }.

Record Requirements := mkRequirements {
  mergeTimeout : string;
  requiredApprovalCount : Z }.

Record ReposWatchSettings := mkWatch {
  monitor : list string;
  ignore : list string }.

Record Config := mkConfig {
  mergeTimeout_collaborator : string;
  mergeTimeout_contributor : string;
  approvalsRequired_collaborator : Z;
  approvalsRequired_contributor : Z;
  watch : ReposWatchSettings }.

(** The result of [parseTarget]. *)
Record Target := mkTarget { target_org : string; target_repo : string }.

Section Helpers.

(** *** The JavaScript runtime

    The built-ins the helpers call are parameters of the development:
    [number] is the type of JavaScript numbers as far as issue numbers go,
    [Number] is the conversion from strings; [URL_pathname url] is [new URL(url).pathname], rejected when
    the constructor throws; [Date_parse s] is the time value of
    [new Date(s)]; [ms] is the duration parser of the package of that
    name, [None] where it yields no number. *)
Variable number : Type.
Variable Number : string -> number.
Variable URL_pathname : string -> outcome string.
Variable Date_parse : string -> Date.
Variable ms : string -> option Z.

Record IssueParams := mkIssueParams {
  owner : string;
  repo : string;
  issue_number : number }.

(** *** Requests, log lines and traces *)

Inductive request :=
| PullsGet (p : IssueParams)
| PullsListReviews (p : IssueParams)
| PullsMerge (p : IssueParams)
| ChecksListSuitesForRef (owner repo ref : string)
| ChecksListForSuite (owner repo : string) (check_suite_id : Z)
| SearchIssuesAndPullRequests (q : string)
| TimelineEvents (p : IssueParams)
| GetRepositories
| StoreDelete (url : string).

Inductive level := Debug | Info | Err.

(** One constructor per log statement of the source, with the values its
    template interpolates. *)
Inductive message :=
| MsgNothingToDo
| MsgProcessing (url : string)
| MsgAlreadyMergedOrClosed (url : string)
| MsgFailedToDelete (url : string) (e : exn)
| MsgRequirements (association : string) (r : Requirements) (lastActivity : Date)
| MsgWillMerge (url timeout : string) (lastActivity : Date)
| MsgCiNotPassing (url sha : string)
| MsgInsufficientApprovals (url : string)
| MsgStillActive (url : string) (lastActivity : Date)
| MsgCouldNotProcess (url : string) (e : exn)
| MsgErrorFetchingReviews (e : exn)
| MsgCheckingSuite (id : Z) (url workflowName : string)
| MsgWorkflow (name : string) (id : Z) (url status : string) (conclusion : option string)
| MsgWillRetry
| MsgErrorCheckingCi (e : exn)
| MsgNoOwner
| MsgErrorOpenPullRequests (filter : list string) (e : exn).

Inductive event :=
| Request (r : request)
| Log (l : level) (m : message)
| Wait (milliseconds : Z).

(** *** The context *)

Record Octokit := mkOctokit {
  pulls_get : IssueParams -> outcome PullRequest;
  pulls_listReviews : IssueParams -> outcome (list Review);
  pulls_merge : IssueParams -> outcome unit;
  checks_listSuitesForRef : string -> string -> string -> outcome (list CheckSuite);
  (** The check runs of a suite change while the gate polls: the answer
      may depend on the number of the attempt that asks. *)
  checks_listForSuite : nat -> string -> string -> Z -> outcome (list CheckRun);
  search_issuesAndPullRequests : string -> outcome (list string) }.

Record Context := mkContext {
  octokit : Octokit;
  config : Config;
  env_workflowName : string;
  (** [payload.repository.owner?.login] *)
  repository_owner : option string;
  (** [adapters.sqlite.pullRequest.delete] *)
  pullRequest_delete : string -> outcome unit;
  (** [getRepositories] and [getAllTimelineEvents], fetchers that are not
      part of the two files. *)
  getRepositories : outcome (option (list string));
  getAllTimelineEvents : IssueParams -> outcome (list IssueEvent);
  (** The clock read by [new Date()]. *)
  Date_now : Z }.

(** *** The monad of asynchronous computations *)

Definition M (A : Type) : Type := (list event * outcome A)%type.

Definition ret {A} (a : A) : M A := ([], Resolved a).

Definition throw {A} (e : exn) : M A := ([], Rejected e).

Definition bind {A B} (m : M A) (k : A -> M B) : M B :=
  let '(t, r) := m in
  match r with
  | Resolved a => let '(t', r') := k a in (t ++ t', r')
  | Rejected e => (t, Rejected e)
  end.

(** [try { m } catch (e) { h e }], every promise in [m] being awaited. *)
Definition tryCatch {A} (m : M A) (h : exn -> M A) : M A :=
  let '(t, r) := m in
  match r with
  | Resolved a => (t, Resolved a)
  | Rejected e => let '(t', r') := h e in (t ++ t', r')
  end.

(** An [async] function that returns a promise settles the way that
    promise does, whatever [try] block the [return] stood in. *)
Definition adopt {A} (m : M (M A)) : M A := bind m (fun promise => promise).

Definition settle {A} (r : outcome A) : M A := ([], r).

Definition await {A} (rq : request) (answer : outcome A) : M A :=
  ([Request rq], answer).

Definition log (l : level) (m : message) : M unit := ([Log l m], Resolved tt).

Definition wait (milliseconds : Z) : M unit := ([Wait milliseconds], Resolved tt).

Notation "x <- m ;; k" := (bind m (fun x => k))
  (at level 61, m at next level, right associativity).
Notation "m ;;; k" := (bind m (fun _ => k))
  (at level 61, right associativity).

(** [Promise.all]: every computation has been started, in order, when the
    results are awaited; the first rejection in list order is the
    rejection of the whole. *)
Fixpoint Promise_all {A} (ps : list (M A)) : M (list A) :=
  match ps with
  | [] => ret []
  | p :: rest =>
      let '(t, r) := p in
      let '(t', rs) := Promise_all rest in
      (t ++ t',
       match r, rs with
       | Rejected e, _ => Rejected e
       | Resolved _, Rejected e => Rejected e
       | Resolved a, Resolved l => Resolved (a :: l)
       end)
  end.

(** [for (const x of l) { body x }]. *)
Fixpoint forOf {A} (l : list A) (body : A -> M unit) : M unit :=
  match l with
  | [] => ret tt
  | x :: rest => body x ;;; forOf rest body
  end.

(** *** github.ts *)

Definition parseGitHubUrl (url : string) : outcome IssueParams :=
  match URL_pathname url with
  | Rejected e => Rejected e
  | Resolved pathname =>
      let path := split slash pathname in
      if negb (length path =? 5)%nat then
        Rejected (Error ("[parseGitHubUrl] Invalid url: [" +++ url +++ "]"))
      else
        Resolved {| owner := nth 1 path EmptyString;
                    repo := nth 2 path EmptyString;
                    issue_number := Number (nth 4 path EmptyString) |}
  end.

Variable context : Context.

Definition getMergeTimeoutAndApprovalRequiredCount (authorAssociation : string)
  : M Requirements :=
  let timeoutCollaborator :=
    {| mergeTimeout := mergeTimeout_collaborator (config context);
       requiredApprovalCount := approvalsRequired_collaborator (config context) |} in
  let timeoutContributor :=
    {| mergeTimeout := mergeTimeout_contributor (config context);
       requiredApprovalCount := approvalsRequired_contributor (config context) |} in
  ret (if existsb (String.eqb authorAssociation) ["COLLABORATOR"; "MEMBER"; "OWNER"]
       then timeoutCollaborator else timeoutContributor).

Definition getApprovalCount (p : IssueParams) : M nat :=
  tryCatch
    (reviews <- await (PullsListReviews p) (pulls_listReviews (octokit context) p) ;;
     ret (length (filter (fun review => review_state review =? "APPROVED") reviews)))
    (fun e =>
       log Err (MsgErrorFetchingReviews e) ;;;
       ret 0).

(** The second [find] of an attempt: each run looked at is logged, and the
    search stops at the first run whose conclusion is ["failure"]. *)
Fixpoint findFailure (runs : list CheckRun) : M bool :=
  match runs with
  | [] => ret false
  | o :: rest =>
      log Debug (MsgWorkflow (run_name o) (run_id o) (run_url o)
                             (run_status o) (run_conclusion o)) ;;;
      match run_conclusion o with
      | Some c => if c =? "failure" then ret true else findFailure rest
      | None => findFailure rest
      end
  end.

(** The [for] loop of an attempt over the check runs of each suite; the
    result is [boolean | null], [None] standing for [null]. *)
Fixpoint checkLoop (checkResults : list (list CheckRun)) : M (option bool) :=
  match checkResults with
  | [] => ret (Some true)
  | checkResult :: rest =>
      let filteredResults :=
        filter (fun o => negb (run_name o =? env_workflowName context)) checkResult in
      if existsb (fun o => negb (run_status o =? "completed")) filteredResults then
        ret None
      else
        failed <- findFailure filteredResults ;;
        if failed then ret (Some false) else checkLoop rest
  end.

(** The function handed to [retryAsync]. *)
Definition checkAttempt (checkSuites : list CheckSuite) (owner repo : string)
    (attempt : nat) : M (option bool) :=
  checkResults <-
    Promise_all
      (map (fun suite =>
              log Debug (MsgCheckingSuite (suite_id suite) (suite_url suite)
                                          (env_workflowName context)) ;;;
              await (ChecksListForSuite owner repo (suite_id suite))
                    (checks_listForSuite (octokit context) attempt owner repo
                                         (suite_id suite)))
           checkSuites) ;;
  checkLoop checkResults.

(** The [until] option. *)
Definition untilNotNull (lastResult : option bool) : M bool :=
  match lastResult with
  | None => log Info MsgWillRetry ;;; ret false
  | Some _ => ret true
  end.

(** Whether [retryAsync] tries again after an attempt that threw, or
    rethrows at once: the sources do not say, and nothing below depends on
    the answer. *)
Variable retryRejected : bool.

(** The outcome of a computation as a value, for the loop below. *)
Definition reify {A} (m : M A) : M (outcome A) :=
  let '(t, r) := m in (t, Resolved r).

(** Modelled from the spec: [retryAsync] of the package ts-retry, which the
    sources import and do not contain.  The attempts are made at fixed
    intervals of [delay] milliseconds, at most [maxTry] of them, and stop
    as soon as [until] accepts a result.  When the attempts are used up
    the loop follows the package and not the words of the spec: the last
    result is not returned, the promise is rejected with [TooManyTries].
    [more] is the number of attempts left after the current one,
    [currentTry] the number of the current one, from 1. *)
Fixpoint retryLoop {A} (fn : nat -> M A) (until : A -> M bool) (delay : Z)
    (more currentTry : nat) : M A :=
  r <- reify (fn currentTry) ;;
  match r with
  | Resolved lastResult =>
      stop <- until lastResult ;;
      if stop then ret lastResult
      else match more with
           | O => throw TooManyTries
           | S more' =>
               wait delay ;;;
               retryLoop fn until delay more' (S currentTry)
           end
  | Rejected e =>
      match more with
      | O => throw e
      | S more' =>
          if retryRejected then
            wait delay ;;;
            retryLoop fn until delay more' (S currentTry)
          else throw e
      end
  end.

Definition retryAsync {A} (fn : nat -> M A) (until : A -> M bool)
    (maxTry : nat) (delay : Z) : M A :=
  retryLoop fn until delay (Nat.pred maxTry) 1.

(** [return retryAsync(...)] hands the promise over without [await]: the
    [catch] clause sees a failure of [listSuitesForRef], which is awaited
    in the [try] block, and does not see a rejection of the returned
    promise. *)
Definition isCiGreen (sha : string) (p : IssueParams) : M (option bool) :=
  adopt
    (tryCatch
       (let ref := sha in
        checkSuites <-
          await (ChecksListSuitesForRef (owner p) (repo p) ref)
                (checks_listSuitesForRef (octokit context) (owner p) (repo p) ref) ;;
        ret (retryAsync (checkAttempt checkSuites (owner p) (repo p))
                        untilNotNull 100 60000))
       (fun e =>
          log Err (MsgErrorCheckingCi e) ;;;
          ret (ret (Some false)))).

Definition parseTarget (target : string) : M (option Target) :=
  match repository_owner context with
  | None =>
      let errorMessage :=
        "No repository owner has been found, the target cannot be parsed." in
      log Err MsgNoOwner ;;;
      throw (Error errorMessage)
  | Some owner =>
      let parts := split slash target in
      let orgParsed := hd EmptyString parts in
      let repoParsed := nth_error parts 1 in
      if truthy repoParsed then
        if negb (orgParsed =? owner) then ret None
        else ret (Some {| target_org := owner; target_repo := or_else repoParsed EmptyString |})
      else
        ret (Some {| target_org := owner; target_repo := orgParsed |})
  end.

(** The callbacks of the two [reduce] calls. *)
Definition monitorTerm (parsedTarget : Target) : string :=
  if truthy (Some (target_repo parsedTarget))
  then "repo:" +++ target_org parsedTarget +++ "/" +++ target_repo parsedTarget
  else "org:" +++ target_org parsedTarget.

Definition ignoreTerm (parsedTarget : Target) : string :=
  if truthy (Some (target_repo parsedTarget))
  then "-repo:" +++ target_org parsedTarget +++ "/" +++ target_repo parsedTarget
  else "-org:" +++ target_org parsedTarget.

(** [targets.reduce((acc, curr) => ..., acc)], the callback parsing [curr]
    and appending the term of a target that is kept. *)
Fixpoint reduceTargets (term : Target -> string) (targets acc : list string)
  : M (list string) :=
  match targets with
  | [] => ret acc
  | curr :: rest =>
      parsedTarget <- parseTarget curr ;;
      match parsedTarget with
      | Some t => reduceTargets term rest (acc ++ [term t])
      | None => reduceTargets term rest acc
      end
  end.

(** The search filter of [getOpenPullRequests]. *)
Definition searchFilter (targets : ReposWatchSettings) : M (list string) :=
  let monitor0 := monitor targets in
  let monitor :=
    if (length monitor0 =? 0)%nat then
      monitor0 ++ ["org: " +++ match repository_owner context with
                               | Some login => login
                               | None => "undefined"
                               end]
    else monitor0 in
  positive <- reduceTargets monitorTerm monitor [] ;;
  negative <- reduceTargets ignoreTerm (ignore targets) [] ;;
  ret (positive ++ negative).

(** The items of the answer are not arrays, and [flat] leaves them. *)
Definition getOpenPullRequests (targets : ReposWatchSettings) : M (list string) :=
  filter <- searchFilter targets ;;
  tryCatch
    (let q := "is:pr is:open draft:false " +++ join " " filter in
     data <- await (SearchIssuesAndPullRequests q)
                   (search_issuesAndPullRequests (octokit context) q) ;;
     ret data)
    (fun e =>
       log Err (MsgErrorOpenPullRequests filter e) ;;;
       throw e).

(** *** update-pull-requests.ts *)

Definition getPullRequestDetails (p : IssueParams) : M PullRequest :=
  await (PullsGet p) (pulls_get (octokit context) p).

Definition mergePullRequest (pullRequest : string) (p : IssueParams) : M unit :=
  await (StoreDelete pullRequest) (pullRequest_delete context pullRequest) ;;;
  await (PullsMerge p) (pulls_merge (octokit context) p).

Definition isPastOffset (lastActivityDate : Date) (offset : string) : outcome bool :=
  let currentDate := Date_now context in
  match ms offset with
  | None => Rejected (Error "Invalid offset format")
  | Some offsetTime =>
      let futureDate :=
        match lastActivityDate with
        | Some t => TimeClip (t + offsetTime)
        | None => None
        end in
      Resolved match futureDate with
               | Some future => (future <? currentDate)%Z
               | None => false
               end
  end.

(** The condition
    [isNaN(lastActivityDate.getTime()) || isPastOffset(lastActivityDate, offset)]:
    the right operand is not evaluated when the left one holds. *)
Definition isDue (lastActivityDate : Date) (offset : string) : outcome bool :=
  if isNaN lastActivityDate then Resolved true
  else isPastOffset lastActivityDate offset.

(** [new Date(...)] of the first of [e.created_at], [e.updated_at],
    [e.timestamp] and [e.commented_at] that is truthy, of the empty string
    when none is. *)
Definition eventDate (e : IssueEvent) : Date :=
  Date_parse (or_else (created_at e)
               (or_else (updated_at e)
                 (or_else (timestamp e)
                   (or_else (commented_at e) EmptyString)))).

(** The time values of the events whose date is valid. *)
Definition eventDates (activity : list IssueEvent) : list Z :=
  flat_map (fun event => match eventDate event with
                         | Some t => [t]
                         | None => []
                         end) activity.

(** The body of the loop of [updatePullRequests], its [try] and [catch]
    included; [continue] and the end of the body both lead to the next
    tracked pull request. *)
Definition processPullRequest (pullRequest : string) : M unit :=
  tryCatch
    (gitHubUrl <- settle (parseGitHubUrl pullRequest) ;;
     pullRequestDetails <- getPullRequestDetails gitHubUrl ;;
     log Debug (MsgProcessing pullRequest) ;;;
     if merged pullRequestDetails || truthy (closed_at pullRequestDetails) then
       log Info (MsgAlreadyMergedOrClosed pullRequest) ;;;
       tryCatch
         (await (StoreDelete pullRequest) (pullRequest_delete context pullRequest))
         (fun e => log Err (MsgFailedToDelete pullRequest e))
     else
       timelineUrl <- settle (parseGitHubUrl pullRequest) ;;
       activity <- await (TimelineEvents timelineUrl)
                         (getAllTimelineEvents context timelineUrl) ;;
       let lastActivityDate := maxDate (eventDates activity) in
       requirements <-
         getMergeTimeoutAndApprovalRequiredCount (author_association pullRequestDetails) ;;
       log Debug (MsgRequirements (author_association pullRequestDetails)
                                  requirements lastActivityDate) ;;;
       due <- settle (isDue lastActivityDate (mergeTimeout requirements)) ;;
       if due then
         approvals <- getApprovalCount gitHubUrl ;;
         if (requiredApprovalCount requirements <=? Z.of_nat approvals)%Z then
           green <- isCiGreen (head_sha pullRequestDetails) gitHubUrl ;;
           match green with
           | Some true =>
               log Info (MsgWillMerge pullRequest (mergeTimeout requirements)
                                      lastActivityDate) ;;;
               mergePullRequest pullRequest gitHubUrl
           | _ =>
               log Info (MsgCiNotPassing pullRequest (head_sha pullRequestDetails))
           end
         else
           log Info (MsgInsufficientApprovals pullRequest)
       else
         log Info (MsgStillActive pullRequest lastActivityDate))
    (fun e => log Err (MsgCouldNotProcess pullRequest e)).

Definition updatePullRequests : M unit :=
  pullRequests <- await GetRepositories (getRepositories context) ;;
  match pullRequests with
  | None | Some [] => log Info MsgNothingToDo
  | Some l => forOf l processPullRequest
  end.

End Helpers.

Arguments mkIssueParams {number} owner repo issue_number.
Arguments owner {number} i.
Arguments repo {number} i.
Arguments issue_number {number} i.
Arguments mkOctokit {number}.
Arguments pulls_get {number} o.
Arguments pulls_listReviews {number} o.
Arguments pulls_merge {number} o.
Arguments checks_listSuitesForRef {number} o.
Arguments checks_listForSuite {number} o.
Arguments search_issuesAndPullRequests {number} o.
Arguments mkContext {number}.
Arguments octokit {number} c.
Arguments config {number} c.
Arguments env_workflowName {number} c.
Arguments repository_owner {number} c.
Arguments pullRequest_delete {number} c.
Arguments getRepositories {number} c.
Arguments getAllTimelineEvents {number} c.
Arguments Date_now {number} c.
Arguments PullsGet {number} p.
Arguments PullsListReviews {number} p.
Arguments PullsMerge {number} p.
Arguments ChecksListSuitesForRef {number} owner repo ref.
Arguments ChecksListForSuite {number} owner repo check_suite_id.
Arguments SearchIssuesAndPullRequests {number} q.
Arguments TimelineEvents {number} p.
Arguments GetRepositories {number}.
Arguments StoreDelete {number} url.
Arguments Request {number} r.
Arguments Log {number} l m.
Arguments Wait {number} milliseconds.
Arguments ret {number A} a.
Arguments throw {number A} e.
Arguments bind {number A B} m k.
Arguments tryCatch {number A} m h.
Arguments log {number} l m.
Arguments wait {number} milliseconds.
Arguments await {number A} rq answer.
Arguments settle {number A} r.

(** ** Reading a trace *)

Section Traces.

Context {number : Type}.

Definition isMerge (e : event number) : bool :=
  match e with Request (PullsMerge _) => true | _ => false end.

Definition isDelete (e : event number) : bool :=
  match e with Request (StoreDelete _) => true | _ => false end.

Definition isWait (e : event number) : bool :=
  match e with Wait _ => true | _ => false end.

Definition isErrorLog (e : event number) : bool :=
  match e with Log Err _ => true | _ => false end.

(** The events a run of the CI gate can produce. *)
Definition isCiEvent (e : event number) : bool :=
  match e with
  | Request (ChecksListSuitesForRef _ _ _) | Request (ChecksListForSuite _ _ _) => true
  | Request _ => false
  | Log _ _ | Wait _ => true
  end.

(** The events an attempt of the CI gate can produce. *)
Definition isAttemptEvent (e : event number) : bool :=
  match e with
  | Request (ChecksListForSuite _ _ _) | Log Debug _ => true
  | _ => false
  end.

(** The events the retry loop of the CI gate can produce: those of its
    attempts, the notice of a retry, the waits. *)
Definition isPollEvent (e : event number) : bool :=
  match e with
  | Request (ChecksListForSuite _ _ _) | Log Debug _ | Log Info _ | Wait _ => true
  | _ => false
  end.

(** The events the approval counter can produce. *)
Definition isReviewEvent (e : event number) : bool :=
  match e with
  | Request (PullsListReviews _) | Log _ _ => true
  | _ => false
  end.

(** Every wait of the trace lasts [delay] milliseconds. *)
Definition waitsFor (delay : Z) (e : event number) : bool :=
  match e with
  | Wait d => (d =? delay)%Z
  | _ => true
  end.

(** The time spent waiting, in milliseconds. *)
Fixpoint totalWait (t : list (event number)) : Z :=
  match t with
  | [] => 0
  | Wait d :: rest => d + totalWait rest
  | _ :: rest => totalWait rest
  end.

(** The number of events of a kind in a trace. *)
Definition count (kind : event number -> bool) (t : list (event number)) : nat :=
  length (filter kind t).

(** Every event of the trace of a computation is of the kind [P]. *)
Definition emits {A} (P : event number -> bool) (m : M number A) : Prop :=
  forallb P (fst m) = true.

(** The tracked store after a run: every delete request that the store
    answered removes its URL. *)
Fixpoint trackedAfter (answer : string -> outcome unit) (t : list (event number))
    (tracked : list string) : list string :=
  match t with
  | [] => tracked
  | Request (StoreDelete url) :: rest =>
      match answer url with
      | Resolved _ =>
          trackedAfter answer rest (filter (fun u => negb (u =? url)) tracked)
      | Rejected _ => trackedAfter answer rest tracked
      end
  | _ :: rest => trackedAfter answer rest tracked
  end.

End Traces.

Arguments parseGitHubUrl {number} Number URL_pathname url.
Arguments getApprovalCount {number} context p.
Arguments getMergeTimeoutAndApprovalRequiredCount {number} context authorAssociation.
Arguments findFailure {number} runs.
Arguments checkLoop {number} context checkResults.
Arguments checkAttempt {number} context checkSuites owner repo attempt.
Arguments untilNotNull {number} lastResult.
Arguments retryLoop {number} retryRejected {A} fn until delay more currentTry.
Arguments retryAsync {number} retryRejected {A} fn until maxTry delay.
Arguments isCiGreen {number} context retryRejected sha p.
Arguments parseTarget {number} context target.
Arguments reduceTargets {number} context term targets acc.
Arguments searchFilter {number} context targets.
Arguments getOpenPullRequests {number} context targets.
Arguments getPullRequestDetails {number} context p.
Arguments mergePullRequest {number} context pullRequest p.
Arguments isPastOffset {number} ms context lastActivityDate offset.
Arguments isDue {number} ms context lastActivityDate offset.
Arguments processPullRequest {number} Number URL_pathname Date_parse ms context retryRejected pullRequest.
Arguments updatePullRequests {number} Number URL_pathname Date_parse ms context retryRejected.
Arguments Promise_all {number A} ps.
Arguments forOf {number A} l body.
Arguments reify {number A} m.
Arguments adopt {number A} m.

(** ** The check runs of an attempt, read two ways *)

Definition nonSelf (workflowName : string) (runs : list CheckRun) : list CheckRun :=
  filter (fun o => negb (run_name o =? workflowName)) runs.

Definition pending (o : CheckRun) : bool := negb (run_status o =? "completed").

Definition failed (o : CheckRun) : bool :=
  match run_conclusion o with
  | Some c => c =? "failure"
  | None => false
  end.

(** The verdict over the runs of all suites taken together: indeterminate
    if any is pending, else red if any failed, else green. *)
Definition verdictOverAllRuns (workflowName : string)
    (checkResults : list (list CheckRun)) : option bool :=
  let runs := nonSelf workflowName (concat checkResults) in
  if existsb pending runs then None
  else if existsb failed runs then Some false
  else Some true.

(** The verdict suite by suite, in order: the first suite with a pending
    or a failed run decides. *)
Fixpoint verdictBySuite (workflowName : string)
    (checkResults : list (list CheckRun)) : option bool :=
  match checkResults with
  | [] => Some true
  | runs :: rest =>
      if existsb pending (nonSelf workflowName runs) then None
      else if existsb failed (nonSelf workflowName runs) then Some false
      else verdictBySuite workflowName rest
  end.

(** ** The term of a watch target, by its shape *)

(** A target [org/repo] with a repository part is kept when [org] is the
    owner and gives a [repo:] term; a target without a repository part is
    read as the name of a repository of the owner; the empty name gives
    the [org:] term of the owner. *)
Definition termsOfTarget (sign owner target : string) : list string :=
  let bare name :=
    match name with
    | EmptyString => [sign +++ "org:" +++ owner]
    | _ => [sign +++ "repo:" +++ owner +++ "/" +++ name]
    end in
  match split slash target with
  | org :: String c r :: _ =>
      if org =? owner then [sign +++ "repo:" +++ owner +++ "/" +++ String c r] else []
  | name :: _ => bare name
  | [] => []
  end.

(** ** The trace of a tracked pull request that is open and due *)

Section Expected.

Context {number : Type}.
Variable context : Context number.
Variable retryRejected : bool.

(** The requirements of an author association. *)
Definition requirementsOf (association : string) : Requirements :=
  if existsb (String.eqb association) ["COLLABORATOR"; "MEMBER"; "OWNER"]
  then mkRequirements (mergeTimeout_collaborator (config context))
                      (approvalsRequired_collaborator (config context))
  else mkRequirements (mergeTimeout_contributor (config context))
                      (approvalsRequired_contributor (config context)).

(** What [mergePullRequest] and the handler of the item leave in the
    trace: the delete request, then, if the store answered, the merge
    request; a failure of either is logged by the handler. *)
Definition mergeTrace (url : string) (p : IssueParams number) : list (event number) :=
  match pullRequest_delete context url with
  | Rejected e => [Request (StoreDelete url); Log Err (MsgCouldNotProcess url e)]
  | Resolved _ =>
      Request (StoreDelete url) :: Request (PullsMerge p) ::
      match pulls_merge (octokit context) p with
      | Resolved _ => []
      | Rejected e => [Log Err (MsgCouldNotProcess url e)]
      end
  end.

(** What follows the due check of an open pull request that is due. *)
Definition decisionTrace (url : string) (p : IssueParams number)
    (details : PullRequest) (lastActivityDate : Date) : list (event number) :=
  let requirements := requirementsOf (author_association details) in
  let approvals := getApprovalCount context p in
  let ci := isCiGreen context retryRejected (head_sha details) p in
  fst approvals ++
  match snd approvals with
  | Rejected e => [Log Err (MsgCouldNotProcess url e)]
  | Resolved n =>
      if (requiredApprovalCount requirements <=? Z.of_nat n)%Z then
        fst ci ++
        match snd ci with
        | Resolved (Some true) =>
            Log Info (MsgWillMerge url (mergeTimeout requirements) lastActivityDate)
            :: mergeTrace url p
        | Resolved _ => [Log Info (MsgCiNotPassing url (head_sha details))]
        | Rejected e => [Log Err (MsgCouldNotProcess url e)]
        end
      else [Log Info (MsgInsufficientApprovals url)]
  end.

End Expected.

(** ** A concrete runtime and concrete contexts

    Issue numbers are integers or [NaN]; the URLs, dates and durations of
    the examples are read by small tables and parsers. *)

Definition digitOf (c : ascii) : option Z :=
  let n := nat_of_ascii c in
  if ((48 <=? n) && (n <=? 57))%nat then Some (Z.of_nat (n - 48)) else None.

Fixpoint decimal (s : string) (acc : Z) : option Z :=
  match s with
  | EmptyString => Some acc
  | String c rest =>
      match digitOf c with
      | Some d => decimal rest (10 * acc + d)
      | None => None
      end
  end.

Definition exampleNumber (s : string) : option Z := decimal s 0.

(** The part of a URL after [://]. *)
Fixpoint afterScheme (s : string) : option string :=
  match s with
  | EmptyString => None
  | String c rest =>
      if (c =? ":")%char then
        match rest with
        | String c1 (String c2 rest') =>
            if ((c1 =? "/") && (c2 =? "/"))%char then Some rest' else afterScheme rest
        | _ => None
        end
      else afterScheme rest
  end.

(** From the first slash on, up to the query or the fragment. *)
Fixpoint pathOf (inHost : bool) (s : string) : string :=
  match s with
  | EmptyString => if inHost then "/" else EmptyString
  | String c rest =>
      if ((c =? "?") || (c =? "#"))%char then (if inHost then "/" else EmptyString)
      else if inHost then
             (if (c =? "/")%char then String c (pathOf false rest) else pathOf true rest)
           else String c (pathOf false rest)
  end.

Definition examplePathname (url : string) : outcome string :=
  match afterScheme url with
  | Some rest => Resolved (pathOf true rest)
  | None => Rejected (mkExn "TypeError" "Invalid URL")
  end.

Definition exampleDate_parse (s : string) : Date :=
  if s =? "2024-01-01T00:00:00.000Z" then Some 1704067200000%Z else None.

Definition exampleMs (s : string) : option Z :=
  if s =? "1 day" then Some 86400000%Z
  else if s =? "3 days" then Some 259200000%Z
  else None.

Definition exampleUrl : string := "https://host/OWNER/REPO/pull/42".

Definition exampleParams : IssueParams (option Z) :=
  mkIssueParams "OWNER" "REPO" (Some 42%Z).

Definition exampleDetails : PullRequest :=
  mkPullRequest false None "MEMBER" "abc123".

Definition mergedDetails : PullRequest :=
  mkPullRequest true (Some "2024-01-02T00:00:00.000Z") "MEMBER" "abc123".

Definition exampleConfig : Config :=
  mkConfig "1 day" "3 days" 2 2 (mkWatch [] []).

Definition networkError : exn := mkExn "HttpError" "connect ETIMEDOUT".

Definition run (name status : string) (conclusion : option string) : CheckRun :=
  mkCheckRun name 1 "https://host/run/1" status conclusion.

Definition greenRuns : list CheckRun :=
  [run "build" "completed" (Some "success"); run "auto-merge" "in_progress" None].

Definition exampleOctokit (details : PullRequest) (merge : outcome unit)
    (runs : nat -> Z -> outcome (list CheckRun)) (suites : list CheckSuite)
  : Octokit (option Z) :=
  mkOctokit
    (fun _ => Resolved details)
    (fun _ => Resolved [mkReview "APPROVED"; mkReview "CHANGES_REQUESTED";
                        mkReview "APPROVED"])
    (fun _ => merge)
    (fun _ _ _ => Resolved suites)
    (fun attempt _ _ suite => runs attempt suite)
    (fun _ => Resolved []).

Definition oneSuite : list CheckSuite := [mkCheckSuite 7 "https://host/suite/7"].

(** A tracked pull request, two days after its last activity, with two
    approvals of the two required. *)
Definition exampleContext (details : PullRequest) (delete merge : outcome unit)
    (runs : nat -> Z -> outcome (list CheckRun)) (activity : list IssueEvent)
  : Context (option Z) :=
  mkContext
    (exampleOctokit details merge runs oneSuite)
    exampleConfig
    "auto-merge"
    (Some "ubiquity")
    (fun _ => delete)
    (Resolved (Some [exampleUrl]))
    (fun _ => Resolved activity)
    1704240000000%Z.

Definition oldActivity : list IssueEvent :=
  [mkIssueEvent (Some "2024-01-01T00:00:00.000Z") None None None].

Definition readyContext (delete merge : outcome unit) : Context (option Z) :=
  exampleContext exampleDetails delete merge (fun _ _ => Resolved greenRuns) oldActivity.

(** The check runs are pending at the first attempt and green from the
    second on. *)
Definition pollingContext : Context (option Z) :=
  exampleContext exampleDetails (Resolved tt) (Resolved tt)
    (fun attempt _ =>
       if (attempt <=? 1)%nat
       then Resolved [run "build" "in_progress" None]
       else Resolved greenRuns)
    oldActivity.

(** The check runs are pending at every attempt. *)
Definition stuckContext : Context (option Z) :=
  exampleContext exampleDetails (Resolved tt) (Resolved tt)
    (fun _ _ => Resolved [run "build" "in_progress" None]) oldActivity.

(** Listing the check runs of a suite fails at every attempt. *)
Definition unreachableContext : Context (option Z) :=
  exampleContext exampleDetails (Resolved tt) (Resolved tt)
    (fun _ _ => Rejected networkError) oldActivity.

(** Two suites: a failed run in the first, a pending run in the second. *)
Definition twoSuites : list (list CheckRun) :=
  [[run "lint" "completed" (Some "failure")]; [run "build" "in_progress" None]].

(** The requests of the CI gate. *)
Definition isCheckRequest {number : Type} (e : event number) : bool :=
  match e with
  | Request (ChecksListSuitesForRef _ _ _) | Request (ChecksListForSuite _ _ _) => true
  | _ => false
  end.

(** ** The fetches of an attempt *)

(** The outcome of [Promise.all] on promises that have settled: the list
    of the values, or the first rejection in list order. *)
Fixpoint settleAll {A} (rs : list (outcome A)) : outcome (list A) :=
  match rs with
  | [] => Resolved []
  | r :: rest =>
      match r, settleAll rest with
      | Rejected e, _ => Rejected e
      | Resolved _, Rejected e => Rejected e
      | Resolved a, Resolved l => Resolved (a :: l)
      end
  end.

(** At attempt [k] the check runs of every suite are fetched, and those
    whose name is not the workflow's own are all completed, none with
    conclusion failure. *)
Definition greenAt {number : Type} (context : Context number)
    (checkSuites : list CheckSuite) (owner repo : string) (k : nat) : Prop :=
  forall suite,
    In suite checkSuites ->
    exists runs,
      checks_listForSuite (octokit context) k owner repo (suite_id suite) = Resolved runs
      /\ forall o, In o (nonSelf (env_workflowName context) runs) ->
                   run_status o = "completed" /\ run_conclusion o <> Some "failure".

(** A term of the search filter that names the owner: [org:owner] or
    [repo:owner/name], possibly negated. *)
Definition ownerScoped (owner term : string) : Prop :=
  exists sign,
    (sign = EmptyString \/ sign = "-")
    /\ (term = sign +++ "org:" +++ owner
        \/ exists name, term = sign +++ "repo:" +++ owner +++ "/" +++ name).

(** A watch target [org/repo] of another organization than [owner]. *)
Definition foreignTarget (owner target : string) : Prop :=
  exists org c r rest,
    split slash target = org :: String c r :: rest /\ org <> owner.

(** ** The exported helpers of github.ts that the orchestrator shadows *)

Module GitHub.
Section Exported.

Context {number : Type}.
Variable context : Context number.

(** [mergePullRequest] of github.ts: the merge call alone. *)
Definition mergePullRequest (p : IssueParams number) : M number unit :=
  await (PullsMerge p) (pulls_merge (octokit context) p).

(** [getPullRequestDetails] of github.ts. *)
Definition getPullRequestDetails (p : IssueParams number) : M number PullRequest :=
  await (PullsGet p) (pulls_get (octokit context) p).

End Exported.
End GitHub.

(** ** The trace of one tracked pull request, stage by stage *)

(** No character of [s] is [sep]. *)
Fixpoint freeOf (sep : ascii) (s : string) : bool :=
  match s with
  | EmptyString => true
  | String c rest => negb (Ascii.eqb c sep) && freeOf sep rest
  end.

Section ItemTrace.

Context {number : Type}.
Variable Number : string -> number.
Variable URL_pathname : string -> outcome string.
Variable Date_parse : string -> Date.
Variable ms : string -> option Z.
Variable context : Context number.
Variable retryRejected : bool.

(** The pull request behind [url] is open, due, approved often enough and
    its gate is green: all that stands before [mergePullRequest]. *)
Definition readyToMerge (url : string) (p : IssueParams number) : Prop :=
  exists details activity n,
    parseGitHubUrl Number URL_pathname url = Resolved p
    /\ pulls_get (octokit context) p = Resolved details
    /\ merged details || truthy (closed_at details) = false
    /\ getAllTimelineEvents context p = Resolved activity
    /\ isDue ms context (maxDate (eventDates Date_parse activity))
             (mergeTimeout (requirementsOf context (author_association details)))
       = Resolved true
    /\ snd (getApprovalCount context p) = Resolved n
    /\ (requiredApprovalCount (requirementsOf context (author_association details))
        <= Z.of_nat n)%Z
    /\ snd (isCiGreen context retryRejected (head_sha details) p)
       = Resolved (Some true).

(** The pull request behind [url] is found merged or closed. *)
Definition foundClosed (url : string) : Prop :=
  exists p details,
    parseGitHubUrl Number URL_pathname url = Resolved p
    /\ pulls_get (octokit context) p = Resolved details
    /\ merged details || truthy (closed_at details) = true.

(** What the item of [url] leaves in the trace, each stage ending the item
    with the error line of its handler when it fails. *)
Definition itemTrace (url : string) : list (event number) :=
  match parseGitHubUrl Number URL_pathname url with
  | Rejected e => [Log Err (MsgCouldNotProcess url e)]
  | Resolved p =>
      Request (PullsGet p) ::
      match pulls_get (octokit context) p with
      | Rejected e => [Log Err (MsgCouldNotProcess url e)]
      | Resolved details =>
          Log Debug (MsgProcessing url) ::
          if merged details || truthy (closed_at details) then
            Log Info (MsgAlreadyMergedOrClosed url) :: Request (StoreDelete url) ::
            match pullRequest_delete context url with
            | Resolved _ => []
            | Rejected e => [Log Err (MsgFailedToDelete url e)]
            end
          else
            Request (TimelineEvents p) ::
            match getAllTimelineEvents context p with
            | Rejected e => [Log Err (MsgCouldNotProcess url e)]
            | Resolved activity =>
                let lastActivityDate := maxDate (eventDates Date_parse activity) in
                let requirements := requirementsOf context (author_association details) in
                Log Debug (MsgRequirements (author_association details) requirements
                                           lastActivityDate) ::
                match isDue ms context lastActivityDate (mergeTimeout requirements) with
                | Rejected e => [Log Err (MsgCouldNotProcess url e)]
                | Resolved true =>
                    decisionTrace context retryRejected url p details lastActivityDate
                | Resolved false => [Log Info (MsgStillActive url lastActivityDate)]
                end
            end
      end
  end.

End ItemTrace.

(** Requests, as opposed to log lines and waits. *)
Definition isRequest {number : Type} (e : event number) : bool :=
  match e with Request _ => true | _ => false end.

(** ** More concrete contexts *)

(** Every call of the hosting API fails; the tracked list holds a URL that
    does not parse, and the usual one. *)
Definition brokenApiContext : Context (option Z) :=
  mkContext
    (mkOctokit
       (fun _ => Rejected networkError)
       (fun _ => Rejected networkError)
       (fun _ => Rejected networkError)
       (fun _ _ _ => Rejected networkError)
       (fun _ _ _ _ => Rejected networkError)
       (fun _ => Rejected networkError))
    exampleConfig
    "auto-merge"
    (Some "ubiquity")
    (fun _ => Resolved tt)
    (Resolved (Some ["https://host/OWNER/REPO"; exampleUrl]))
    (fun _ => Resolved oldActivity)
    1704240000000%Z.

(** The commit has no check suite. *)
Definition noSuiteContext : Context (option Z) :=
  mkContext
    (exampleOctokit exampleDetails (Resolved tt) (fun _ _ => Resolved greenRuns) [])
    exampleConfig
    "auto-merge"
    (Some "ubiquity")
    (fun _ => Resolved tt)
    (Resolved (Some [exampleUrl]))
    (fun _ => Resolved oldActivity)
    1704240000000%Z.

(** The payload names no owner. *)
Definition noOwnerContext : Context (option Z) :=
  mkContext
    (exampleOctokit exampleDetails (Resolved tt) (fun _ _ => Resolved greenRuns) oneSuite)
    exampleConfig
    "auto-merge"
    None
    (fun _ => Resolved tt)
    (Resolved (Some [exampleUrl]))
    (fun _ => Resolved oldActivity)
    1704240000000%Z.

(** The author is a contributor, with a timeout of three days, two days
    after the last activity. *)
Definition contributorDetails : PullRequest :=
  mkPullRequest false None "CONTRIBUTOR" "abc123".

Definition recentContext : Context (option Z) :=
  exampleContext contributorDetails (Resolved tt) (Resolved tt)
    (fun _ _ => Resolved greenRuns) oldActivity.

(** A configuration that asks for three approvals, and one whose timeout
    for collaborators is no duration. *)
Definition strictContext : Context (option Z) :=
  mkContext
    (exampleOctokit exampleDetails (Resolved tt) (fun _ _ => Resolved greenRuns) oneSuite)
    (mkConfig "1 day" "3 days" 3 3 (mkWatch [] []))
    "auto-merge"
    (Some "ubiquity")
    (fun _ => Resolved tt)
    (Resolved (Some [exampleUrl]))
    (fun _ => Resolved oldActivity)
    1704240000000%Z.

Definition vagueContext : Context (option Z) :=
  mkContext
    (exampleOctokit exampleDetails (Resolved tt) (fun _ _ => Resolved greenRuns) oneSuite)
    (mkConfig "soon" "3 days" 2 2 (mkWatch [] []))
    "auto-merge"
    (Some "ubiquity")
    (fun _ => Resolved tt)
    (Resolved (Some [exampleUrl]))
    (fun _ => Resolved oldActivity)
    1704240000000%Z.

(** * Properties *)

(** ** Lists of runs and segments *)

Lemma split_cons (sep : ascii) (s : string) :
  exists seg segs, split sep s = seg :: segs.
Proof.
  induction s as [|c rest [seg [segs IH]]]; simpl; eauto.
  destruct (Ascii.eqb c sep); eauto. rewrite IH. eauto.
Qed.

Lemma existsb_nonSelf_concat (f : CheckRun -> bool) wf (l : list (list CheckRun)) :
  existsb f (nonSelf wf (concat l))
  = existsb (fun runs => existsb f (nonSelf wf runs)) l.
Proof.
  induction l as [|runs rest IH]; [reflexivity|].
  cbn [concat existsb]. unfold nonSelf in *.
  rewrite filter_app, existsb_app, IH. reflexivity.
Qed.

Lemma verdictBySuite_green wf (l : list (list CheckRun)) :
  verdictBySuite wf l = Some true <-> verdictOverAllRuns wf l = Some true.
Proof.
  unfold verdictOverAllRuns. rewrite !existsb_nonSelf_concat.
  induction l as [|runs rest IH]; [simpl; split; reflexivity|].
  cbn [verdictBySuite existsb].
  destruct (existsb pending (nonSelf wf runs)); cbn [orb]; [split; discriminate|].
  destruct (existsb failed (nonSelf wf runs)); cbn [orb].
  - split; [discriminate|].
    destruct (existsb _ rest); discriminate.
  - exact IH.
Qed.

(** ** Splitting and joining *)

Lemma split_app_sep (sep : ascii) (a b : string) :
  split sep (a +++ String sep b) = split sep a ++ split sep b.
Proof.
  induction a as [|c a IH]; cbn [String.append split app].
  - rewrite Ascii.eqb_refl. reflexivity.
  - destruct (Ascii.eqb c sep); rewrite IH; [reflexivity|].
    destruct (split_cons sep a) as [seg [segs ->]]. reflexivity.
Qed.

Lemma split_freeOf (sep : ascii) (s : string) :
  freeOf sep s = true -> split sep s = [s].
Proof.
  induction s as [|c s IH]; [reflexivity|]. cbn [freeOf split].
  intros H. apply andb_true_iff in H. destruct H as [Hc Hs].
  apply negb_true_iff in Hc. rewrite Hc, (IH Hs). reflexivity.
Qed.

Lemma split_segments_free (sep : ascii) (s : string) :
  Forall (fun seg => freeOf sep seg = true) (split sep s).
Proof.
  induction s as [|c s IH]; cbn [split]; [repeat constructor|].
  destruct (Ascii.eqb c sep) eqn:Hc; [constructor; [reflexivity|exact IH]|].
  destruct (split sep s) as [|seg segs]; [repeat constructor; cbn; rewrite Hc; reflexivity|].
  inversion IH as [|? ? Hseg Hsegs]; subst. constructor; [|exact Hsegs].
  cbn [freeOf]. rewrite Hc, Hseg. reflexivity.
Qed.

Lemma join_split (sep : ascii) (s : string) :
  join (String sep EmptyString) (split sep s) = s.
Proof.
  induction s as [|c s IH]; [reflexivity|]. cbn [split].
  destruct (Ascii.eqb c sep) eqn:Hc.
  - apply Ascii.eqb_eq in Hc. subst c.
    destruct (split_cons sep s) as [seg [segs Hs]]. rewrite Hs in *.
    cbn [join]. cbn [join] in IH. rewrite IH. reflexivity.
  - destruct (split sep s) as [|seg segs]; [cbn in IH; subst s; reflexivity|].
    destruct segs as [|seg' segs]; cbn [join] in *; [subst s; reflexivity|].
    rewrite <- IH. reflexivity.
Qed.

Lemma fold_left_max_ge (l : list Z) (a : Z) :
  (a <= fold_left Z.max l a)%Z
  /\ (forall t, In t l -> (t <= fold_left Z.max l a)%Z)
  /\ In (fold_left Z.max l a) (a :: l).
Proof.
  revert a. induction l as [|x l IH]; intros a; cbn [fold_left].
  - split; [lia|]. split; [intros t []|left; reflexivity].
  - destruct (IH (Z.max a x)) as [H1 [H2 H3]]. split; [lia|]. split.
    + intros t [<-|Ht]; [lia|auto].
    + destruct H3 as [H3|H3]; [|right; right; exact H3].
      destruct (Z.max_spec a x) as [[_ Hm]|[_ Hm]]; rewrite Hm in *.
      * right. left. exact H3.
      * left. exact H3.
Qed.

(** ** Traces *)

Section TraceFacts.

Context {number : Type}.

Lemma count_app (kind : event number -> bool) t1 t2 :
  count kind (t1 ++ t2) = count kind t1 + count kind t2.
Proof. unfold count. rewrite filter_app, length_app. reflexivity. Qed.

Lemma totalWait_app (t1 t2 : list (event number)) :
  totalWait (t1 ++ t2) = (totalWait t1 + totalWait t2)%Z.
Proof.
  induction t1 as [|[r|l m|d] t1 IH]; cbn [app totalWait]; lia.
Qed.

Lemma totalWait_no_wait (t : list (event number)) :
  count isWait t = 0 -> totalWait t = 0%Z.
Proof.
  induction t as [|[r|l m|d] t IH]; cbn; auto. discriminate.
Qed.

Lemma trackedAfter_app answer (t1 t2 : list (event number)) tracked :
  trackedAfter answer (t1 ++ t2) tracked
  = trackedAfter answer t2 (trackedAfter answer t1 tracked).
Proof.
  revert tracked. induction t1 as [|[[]|l m|d] t1 IH]; intros tracked;
    cbn [app trackedAfter]; auto.
  destruct (answer url); apply IH.
Qed.

Lemma trackedAfter_incl answer (t : list (event number)) tracked u :
  In u (trackedAfter answer t tracked) -> In u tracked.
Proof.
  revert tracked. induction t as [|[[]|l m|d] t IH]; intros tracked;
    cbn [trackedAfter]; auto.
  destruct (answer url); intros H; apply IH in H; auto.
  apply filter_In in H. tauto.
Qed.

Lemma trackedAfter_deleted answer (before after : list (event number)) url tracked :
  answer url = Resolved tt ->
  ~ In url (trackedAfter answer (before ++ Request (StoreDelete url) :: after) tracked).
Proof.
  intros Hok Hin. rewrite trackedAfter_app in Hin. cbn [trackedAfter] in Hin.
  rewrite Hok in Hin. apply trackedAfter_incl, filter_In in Hin.
  destruct Hin as [_ Hne]. rewrite String.eqb_refl in Hne. discriminate.
Qed.

End TraceFacts.

Section Properties.

Variable number : Type.
Variable num : Z -> number.
Variable Number : string -> number.
Variable URL_pathname : string -> outcome string.
Variable Date_parse : string -> Date.
Variable ms : string -> option Z.
Variable retryRejected : bool.
Variable context : Context number.

(** ** The URL parser *)

(** C8.  A URL whose path does not split into 5 segments is refused with a
    message that holds the URL; one whose path splits into 5 segments gives
    segment 1 as owner, segment 2 as repository and the number read from
    segment 4; so [https://host/OWNER/REPO/pull/42] gives OWNER, REPO, 42. *)
Theorem parseGitHubUrl_segments (url pathname : string) :
  URL_pathname url = Resolved pathname ->
  let path := split slash pathname in
  (length path <> 5 ->
   exists message before after,
     parseGitHubUrl Number URL_pathname url = Rejected (Error message)
     /\ message = before +++ url +++ after)
  /\ (length path = 5 ->
      parseGitHubUrl Number URL_pathname url =
      Resolved (mkIssueParams (nth 1 path EmptyString) (nth 2 path EmptyString) (Number (nth 4 path EmptyString))))
  /\ (url = "https://host/OWNER/REPO/pull/42" ->
      pathname = "/OWNER/REPO/pull/42" ->
      Number "42" = num 42 ->
      parseGitHubUrl Number URL_pathname url =
      Resolved (mkIssueParams "OWNER" "REPO" (num 42))).
Proof.
  intros Hpath path. unfold parseGitHubUrl. rewrite Hpath. fold path.
  repeat split.
  - intros Hlen. apply Nat.eqb_neq in Hlen. rewrite Hlen. simpl.
    exists ("[parseGitHubUrl] Invalid url: [" +++ url +++ "]").
    exists "[parseGitHubUrl] Invalid url: [", "]". split; reflexivity.
  - intros Hlen. apply Nat.eqb_eq in Hlen. rewrite Hlen. reflexivity.
  - intros -> Hp H42. subst path. rewrite Hp. simpl. rewrite H42. reflexivity.
Qed.

(** ** Running a computation *)

Lemma bind_resolved {A B} (m : M number A) (k : A -> M number B) a :
  snd m = Resolved a ->
  bind m k = (fst m ++ fst (k a), snd (k a)).
Proof.
  destruct m as [t r]. simpl. intros ->. simpl. destruct (k a). reflexivity.
Qed.

Lemma bind_rejected {A B} (m : M number A) (k : A -> M number B) e :
  snd m = Rejected e ->
  bind m k = (fst m, Rejected e).
Proof.
  destruct m as [t r]. simpl. intros ->. reflexivity.
Qed.

Lemma tryCatch_resolved {A} (m : M number A) h a :
  snd m = Resolved a ->
  tryCatch m h = (fst m, Resolved a).
Proof.
  destruct m as [t r]. simpl. intros ->. reflexivity.
Qed.

Lemma tryCatch_rejected {A} (m : M number A) h e :
  snd m = Rejected e ->
  tryCatch m h = (fst m ++ fst (h e), snd (h e)).
Proof.
  destruct m as [t r]. simpl. intros ->. destruct (h e). reflexivity.
Qed.

(** ** The verdict of an attempt *)

Lemma findFailure_result (runs : list CheckRun) :
  snd (findFailure (number := number) runs) = Resolved (existsb failed runs).
Proof.
  induction runs as [|o rest IH]; [reflexivity|].
  cbn [findFailure]. rewrite (bind_resolved _ _ tt) by reflexivity.
  cbn [snd existsb]. unfold failed at 1.
  destruct (run_conclusion o) as [c|]; [destruct (c =? "failure")|]; auto.
Qed.

Lemma checkLoop_result (checkResults : list (list CheckRun)) :
  snd (checkLoop context checkResults)
  = Resolved (verdictBySuite (env_workflowName context) checkResults).
Proof.
  induction checkResults as [|runs rest IH]; [reflexivity|].
  cbn [checkLoop verdictBySuite]. fold (nonSelf (env_workflowName context) runs).
  destruct (existsb pending (nonSelf (env_workflowName context) runs)) eqn:Hp.
  - unfold pending in Hp. rewrite Hp. reflexivity.
  - unfold pending in Hp. rewrite Hp.
    rewrite (bind_resolved _ _ _ (findFailure_result _)). cbn [snd].
    destruct (existsb failed _); [reflexivity | exact IH].
Qed.

(** C4 (amended).  An attempt looks at the suites in order, and in each at
    the check runs whose name is not the workflow's own: the first suite
    that has a run not completed or a run with conclusion failure decides,
    indeterminate in the first case and false in the second; with no such
    suite the result is true.  So the result is true exactly when every
    such run of every suite is completed and none failed, and with one
    suite the result is the verdict over its runs.  An indeterminate
    result makes the loop go on, any other stops it. *)
Theorem checkLoop_verdict (checkResults : list (list CheckRun)) :
  let wf := env_workflowName context in
  snd (checkLoop context checkResults) = Resolved (verdictBySuite wf checkResults)
  /\ (verdictBySuite wf checkResults = Some true <->
      (forall runs o, In runs checkResults -> In o (nonSelf wf runs) ->
                      run_status o = "completed" /\ run_conclusion o <> Some "failure"))
  /\ (verdictBySuite wf checkResults = Some true <->
      verdictOverAllRuns wf checkResults = Some true)
  /\ (forall runs, verdictBySuite wf [runs] = verdictOverAllRuns wf [runs])
  /\ (forall runs rest, verdictBySuite wf (runs :: rest) =
        if existsb pending (nonSelf wf runs) then None
        else if existsb failed (nonSelf wf runs) then Some false
        else verdictBySuite wf rest)
  /\ snd (untilNotNull (number := number) None) = Resolved false
  /\ (forall b, snd (untilNotNull (number := number) (Some b)) = Resolved true).
Proof.
  intros wf. split; [apply checkLoop_result|].
  split; [|split; [apply verdictBySuite_green|split; [|split; [|split]]]].
  - induction checkResults as [|runs rest IH].
    + simpl. split; [intros _ ? ? []|reflexivity].
    + cbn [verdictBySuite].
      destruct (existsb pending (nonSelf wf runs)) eqn:Hp.
      * split; [discriminate|]. intros H. exfalso.
        apply existsb_exists in Hp. destruct Hp as [o [Ho Hpend]].
        destruct (H runs o (or_introl eq_refl) Ho) as [Hs _].
        unfold pending in Hpend. rewrite Hs in Hpend. discriminate.
      * destruct (existsb failed (nonSelf wf runs)) eqn:Hf.
        { split; [discriminate|]. intros H. exfalso.
          apply existsb_exists in Hf. destruct Hf as [o [Ho Hfail]].
          destruct (H runs o (or_introl eq_refl) Ho) as [_ Hc].
          unfold failed in Hfail. destruct (run_conclusion o) as [c|]; [|discriminate].
          apply String.eqb_eq in Hfail. subst c. apply Hc. reflexivity. }
        { rewrite IH. split.
          - intros H runs' o [<-|Hin] Ho.
            + split.
              * assert (Hn : pending o = false).
                { destruct (pending o) eqn:E; [|reflexivity].
                  assert (Hex : existsb pending (nonSelf wf runs) = true)
                    by (apply existsb_exists; eauto).
                  congruence. }
                unfold pending in Hn. apply negb_false_iff in Hn.
                apply String.eqb_eq in Hn. exact Hn.
              * intros Hc.
                assert (Hn : failed o = true) by (unfold failed; rewrite Hc; reflexivity).
                assert (Hex : existsb failed (nonSelf wf runs) = true)
                  by (apply existsb_exists; eauto).
                congruence.
            + eapply H; eauto.
          - intros H runs' o Hin Ho. eapply H; [right|]; eauto. }
  - intros runs. unfold verdictOverAllRuns. cbn [verdictBySuite concat].
    rewrite app_nil_r. reflexivity.
  - reflexivity.
  - reflexivity.
  - reflexivity.
Qed.

(** ** Watch targets and the search filter *)

Lemma bind_ext {A B} (m : M number A) (k1 k2 : A -> M number B) :
  (forall a, k1 a = k2 a) -> bind m k1 = bind m k2.
Proof.
  intros H. destruct m as [t [a|e]]; simpl; [rewrite H|]; reflexivity.
Qed.

Lemma parseTarget_foreign (o target org repo_ : string) (rest : list string) :
  repository_owner context = Some o ->
  split slash target = org :: repo_ :: rest ->
  repo_ <> EmptyString ->
  org <> o ->
  parseTarget context target = ret None.
Proof.
  intros Ho Hs Hr Hne. unfold parseTarget. rewrite Ho, Hs. cbn [hd nth_error].
  destruct repo_ as [|c r]; [congruence|]. cbn [truthy].
  apply String.eqb_neq in Hne. rewrite Hne. reflexivity.
Qed.

Lemma reduceTargets_drop (o target : string) term :
  parseTarget context target = ret None ->
  forall before after acc,
    reduceTargets context term (before ++ target :: after) acc
    = reduceTargets context term (before ++ after) acc.
Proof.
  intros Hnull before after. induction before as [|curr before IH]; intros acc.
  - cbn [app reduceTargets]. rewrite Hnull. destruct (reduceTargets _ _ after acc).
    reflexivity.
  - cbn [app reduceTargets]. apply bind_ext. intros [t|]; apply IH.
Qed.

Lemma parseTarget_bare (o target name : string) (rest : list string) :
  repository_owner context = Some o ->
  split slash target = name :: rest ->
  rest = [] \/ (exists more, rest = EmptyString :: more) ->
  parseTarget context target = ret (Some (mkTarget o name)).
Proof.
  intros Ho Hs Hrest. unfold parseTarget. rewrite Ho, Hs. cbn [hd nth_error].
  destruct Hrest as [->|[more ->]]; reflexivity.
Qed.

(** C5 (amended).  A watch target with a repository part, [org/repo], whose
    organization is not the owner of the current repository is parsed to
    null and adds no term to the search filter, in the monitor list and in
    the ignore list alike.  A target without a repository part, a single
    segment or a segment followed by an empty one, is never dropped,
    whatever it names: it is parsed to the repository of that name under
    the owner, and adds the term of that repository to the filter. *)
Theorem parseTarget_foreign_dropped (o : string) :
  repository_owner context = Some o ->
  (forall target org repo_ rest,
     split slash target = org :: repo_ :: rest ->
     repo_ <> EmptyString ->
     org <> o ->
     parseTarget context target = ret None
     /\ (forall term before after acc,
           reduceTargets context term (before ++ target :: after) acc
           = reduceTargets context term (before ++ after) acc)
     /\ (forall monitored before after,
           searchFilter context (mkWatch monitored (before ++ target :: after))
           = searchFilter context (mkWatch monitored (before ++ after)))
     /\ (forall before after ignored,
           before ++ after <> [] ->
           searchFilter context (mkWatch (before ++ target :: after) ignored)
           = searchFilter context (mkWatch (before ++ after) ignored)))
  /\ (forall target name rest,
        split slash target = name :: rest ->
        rest = [] \/ (exists more, rest = EmptyString :: more) ->
        parseTarget context target = ret (Some (mkTarget o name))
        /\ parseTarget context target <> ret None
        /\ (forall term after acc,
              reduceTargets context term (target :: after) acc
              = reduceTargets context term after (acc ++ [term (mkTarget o name)]))
        /\ (name <> EmptyString ->
            monitorTerm (mkTarget o name) = "repo:" +++ o +++ "/" +++ name
            /\ ignoreTerm (mkTarget o name) = "-repo:" +++ o +++ "/" +++ name
            /\ searchFilter context (mkWatch [target] [target])
               = ret ["repo:" +++ o +++ "/" +++ name; "-repo:" +++ o +++ "/" +++ name])).
Proof.
  intros Ho. split.
  - intros target org repo_ rest Hs Hr Hne.
    pose proof (parseTarget_foreign _ _ _ _ _ Ho Hs Hr Hne) as Hnull.
    split; [exact Hnull|]. split; [|split].
    + intros term. apply (reduceTargets_drop o); exact Hnull.
    + intros monitored before after. unfold searchFilter. cbn [monitor ignore].
      apply bind_ext. intros positive.
      rewrite (reduceTargets_drop o target ignoreTerm Hnull). reflexivity.
    + intros before after ignored Hnil. unfold searchFilter.
      cbn [monitor ignore].
      replace (length (before ++ target :: after) =? 0)%nat with false
        by (symmetry; apply Nat.eqb_neq; rewrite length_app; simpl; lia).
      replace (length (before ++ after) =? 0)%nat with false
        by (symmetry; apply Nat.eqb_neq; destruct (before ++ after);
            [congruence|simpl; lia]).
      rewrite (reduceTargets_drop o target monitorTerm Hnull). reflexivity.
  - intros target name rest Hs Hrest.
    pose proof (parseTarget_bare _ _ _ _ Ho Hs Hrest) as Hkept.
    assert (Hstep : forall term after acc,
              reduceTargets context term (target :: after) acc
              = reduceTargets context term after (acc ++ [term (mkTarget o name)])).
    { intros term after acc. cbn [reduceTargets]. rewrite Hkept.
      cbn [bind ret app]. destruct (reduceTargets _ _ _ _). reflexivity. }
    split; [exact Hkept|]. split; [rewrite Hkept; discriminate|].
    split; [exact Hstep|].
    intros Hname. destruct name as [|c r]; [congruence|].
    split; [reflexivity|]. split; [reflexivity|].
    unfold searchFilter. cbn [monitor ignore length Nat.eqb].
    rewrite !Hstep. reflexivity.
Qed.

Lemma reduceTargets_terms (o sign : string) (term : Target -> string) :
  repository_owner context = Some o ->
  (forall t, term t = if truthy (Some (target_repo t))
                      then sign +++ "repo:" +++ target_org t +++ "/" +++ target_repo t
                      else sign +++ "org:" +++ target_org t) ->
  forall targets acc,
    reduceTargets context term targets acc
    = ret (acc ++ flat_map (termsOfTarget sign o) targets).
Proof.
  intros Ho Hterm targets. induction targets as [|curr rest IH]; intros acc.
  - simpl. rewrite app_nil_r. reflexivity.
  - cbn [reduceTargets flat_map]. unfold parseTarget at 1, termsOfTarget at 1.
    rewrite Ho. destruct (split_cons slash curr) as [seg [segs Hs]]. rewrite Hs.
    cbn [hd nth_error].
    destruct segs as [|[|c r] segs]; cbn [nth_error truthy or_else].
    + cbn [bind ret]. rewrite IH, Hterm. cbn [target_repo target_org].
      destruct seg; cbn [truthy]; rewrite <- app_assoc; reflexivity.
    + cbn [bind ret]. rewrite IH, Hterm. cbn [target_repo target_org].
      destruct seg; cbn [truthy]; rewrite <- app_assoc; reflexivity.
    + destruct (seg =? o) eqn:E; cbn [negb bind ret].
      * rewrite IH, Hterm. cbn [target_repo target_org truthy].
        rewrite <- app_assoc. reflexivity.
      * rewrite IH. reflexivity.
Qed.


(** ** The retry loop *)

Lemma retryLoop_eq {A} (fn : nat -> M number A) until delay more currentTry :
  retryLoop retryRejected fn until delay more currentTry
  = bind (reify (fn currentTry)) (fun r =>
      match r with
      | Resolved lastResult =>
          bind (until lastResult) (fun stop =>
            if stop then ret lastResult
            else match more with
                 | O => throw TooManyTries
                 | S more' =>
                     bind (wait delay) (fun _ =>
                       retryLoop retryRejected fn until delay more' (S currentTry))
                 end)
      | Rejected e =>
          match more with
          | O => throw e
          | S more' =>
              if retryRejected then
                bind (wait delay) (fun _ =>
                  retryLoop retryRejected fn until delay more' (S currentTry))
              else throw e
          end
      end).
Proof. destruct more; reflexivity. Qed.

Lemma reify_run {A} (m : M number A) : reify m = (fst m, Resolved (snd m)).
Proof. destruct m; reflexivity. Qed.

Section RetryLoop.

Variable A : Type.
Variable fn : nat -> M number A.
Variable until : A -> M number bool.
Variable delay : Z.

Hypothesis fn_no_wait : forall k, count isWait (fst (fn k)) = 0.
Hypothesis until_no_wait : forall a, count isWait (fst (until a)) = 0.
Hypothesis until_total : forall a, exists b, snd (until a) = Resolved b.

(** The waits of the loop are at most as many as the attempts left, and
    each lasts [delay]. *)
Lemma retryLoop_waits more : forall currentTry,
  let t := fst (retryLoop retryRejected fn until delay more currentTry) in
  count isWait t <= more /\ totalWait t = (Z.of_nat (count isWait t) * delay)%Z.
Proof.
  induction more as [|more' IH]; intros currentTry t; subst t;
    rewrite retryLoop_eq, reify_run;
    rewrite (bind_resolved _ _ (snd (fn currentTry))) by reflexivity;
    cbn [fst snd]; rewrite count_app, totalWait_app, fn_no_wait,
      (totalWait_no_wait _ (fn_no_wait currentTry)); cbn [plus];
    destruct (snd (fn currentTry)) as [a|e].
  - destruct (until_total a) as [b Hb]. rewrite (bind_resolved _ _ b Hb).
    cbn [fst]. rewrite count_app, totalWait_app, until_no_wait,
      (totalWait_no_wait _ (until_no_wait a)).
    destruct b; cbn; lia.
  - cbn. lia.
  - destruct (until_total a) as [b Hb]. rewrite (bind_resolved _ _ b Hb).
    cbn [fst]. rewrite count_app, totalWait_app, until_no_wait,
      (totalWait_no_wait _ (until_no_wait a)).
    destruct b; [cbn; lia|].
    rewrite (bind_resolved _ _ tt) by reflexivity. cbn [fst wait].
    rewrite count_app, totalWait_app.
    destruct (IH (S currentTry)) as [Hc Ht]. rewrite Ht.
    change (count isWait [Wait delay]) with 1.
    change (totalWait [Wait (number := number) delay]) with (delay + 0)%Z. lia.
  - destruct retryRejected; [|cbn; lia].
    rewrite (bind_resolved _ _ tt) by reflexivity. cbn [fst wait].
    rewrite count_app, totalWait_app.
    destruct (IH (S currentTry)) as [Hc Ht]. rewrite Ht.
    change (count isWait [Wait delay]) with 1.
    change (totalWait [Wait (number := number) delay]) with (delay + 0)%Z. lia.
Qed.

(** The loop stops at the first attempt whose result [until] accepts,
    after one wait for each attempt before it. *)
Lemma retryLoop_stops j : forall more currentTry a,
  j <= more ->
  (forall i, i < j -> exists b, snd (fn (currentTry + i)) = Resolved b
                                /\ snd (until b) = Resolved false) ->
  snd (fn (currentTry + j)) = Resolved a ->
  snd (until a) = Resolved true ->
  snd (retryLoop retryRejected fn until delay more currentTry) = Resolved a
  /\ count isWait (fst (retryLoop retryRejected fn until delay more currentTry)) = j.
Proof.
  induction j as [|j IH]; intros more currentTry a Hle Hbefore Hj Hacc;
    rewrite retryLoop_eq, reify_run;
    rewrite (bind_resolved _ _ (snd (fn currentTry))) by reflexivity;
    cbn [fst snd]; rewrite count_app, fn_no_wait; cbn [plus].
  - rewrite Nat.add_0_r in Hj. rewrite Hj.
    rewrite (bind_resolved _ _ true Hacc). cbn [fst snd ret].
    rewrite count_app, until_no_wait. auto.
  - destruct (Hbefore 0 ltac:(lia)) as [b [Hb Hrej]].
    rewrite Nat.add_0_r in Hb. rewrite Hb.
    rewrite (bind_resolved _ _ false Hrej). cbn [fst snd].
    rewrite count_app, until_no_wait. cbn [plus].
    destruct more as [|more']; [lia|].
    rewrite (bind_resolved _ _ tt) by reflexivity. cbn [fst snd wait].
    rewrite count_app. change (count isWait [Wait delay]) with 1.
    assert (Hbefore' : forall i, i < j ->
              exists b, snd (fn (S currentTry + i)) = Resolved b
                        /\ snd (until b) = Resolved false).
    { intros i Hi. destruct (Hbefore (S i) ltac:(lia)) as [b' Hb'].
      exists b'. rewrite Nat.add_succ_comm. exact Hb'. }
    assert (Hj' : snd (fn (S currentTry + j)) = Resolved a)
      by (rewrite Nat.add_succ_comm; exact Hj).
    destruct (IH more' (S currentTry) a ltac:(lia) Hbefore' Hj' Hacc) as [Hr Hc].
    rewrite Hr, Hc. auto.
Qed.

(** When [until] accepts none of the attempts, the loop gives up after the
    last of them, without a further wait. *)
Lemma retryLoop_exhausted more : forall currentTry,
  (forall i, i <= more -> exists b, snd (fn (currentTry + i)) = Resolved b
                                    /\ snd (until b) = Resolved false) ->
  snd (retryLoop retryRejected fn until delay more currentTry) = Rejected TooManyTries
  /\ count isWait (fst (retryLoop retryRejected fn until delay more currentTry)) = more.
Proof.
  induction more as [|more' IH]; intros currentTry Hall;
    rewrite retryLoop_eq, reify_run;
    rewrite (bind_resolved _ _ (snd (fn currentTry))) by reflexivity;
    cbn [fst snd]; rewrite count_app, fn_no_wait; cbn [plus];
    destruct (Hall 0 ltac:(lia)) as [b [Hb Hrej]];
    rewrite Nat.add_0_r in Hb; rewrite Hb;
    rewrite (bind_resolved _ _ false Hrej); cbn [fst snd];
    rewrite count_app, until_no_wait; cbn [plus].
  - auto.
  - rewrite (bind_resolved _ _ tt) by reflexivity. cbn [fst snd wait].
    rewrite count_app. change (count isWait [Wait delay]) with 1.
    destruct (IH (S currentTry)) as [Hr Hc].
    + intros i Hi. destruct (Hall (S i) ltac:(lia)) as [b' Hb'].
      exists b'. rewrite Nat.add_succ_comm. exact Hb'.
    + rewrite Hr, Hc. auto.
Qed.

End RetryLoop.

(** ** What a computation can emit *)

Lemma emits_bind {A B} P (m : M number A) (k : A -> M number B) :
  emits P m -> (forall a, emits P (k a)) -> emits P (bind m k).
Proof.
  unfold emits. destruct m as [t [a|e]]; simpl; intros Hm Hk; [|exact Hm].
  specialize (Hk a). destruct (k a) as [t' r']. simpl in *.
  rewrite forallb_app, Hm, Hk. reflexivity.
Qed.

Lemma emits_tryCatch {A} P (m : M number A) h :
  emits P m -> (forall e, emits P (h e)) -> emits P (tryCatch m h).
Proof.
  unfold emits. destruct m as [t [a|e]]; simpl; intros Hm Hh; [exact Hm|].
  specialize (Hh e). destruct (h e) as [t' r']. simpl in *.
  rewrite forallb_app, Hm, Hh. reflexivity.
Qed.

Lemma emits_Promise_all {A} P (ps : list (M number A)) :
  (forall p, In p ps -> emits P p) -> emits P (Promise_all ps).
Proof.
  unfold emits. induction ps as [|[t r] ps IH]; intros H; [reflexivity|].
  cbn [Promise_all]. destruct (Promise_all ps) as [t' rs]. cbn [fst] in *.
  rewrite forallb_app, IH by (intros; apply H; right; assumption).
  pose proof (H (t, r) (or_introl eq_refl)) as Hp. cbn [fst] in Hp.
  rewrite Hp. reflexivity.
Qed.

Lemma emits_retryLoop {A} P (fn : nat -> M number A) until delay :
  (forall k, emits P (fn k)) -> (forall a, emits P (until a)) ->
  P (Wait delay) = true ->
  forall more currentTry,
    emits P (retryLoop retryRejected fn until delay more currentTry).
Proof.
  intros Hfn Huntil Hwait. induction more as [|more' IH]; intros currentTry;
    rewrite retryLoop_eq; apply emits_bind;
    try (unfold emits; rewrite reify_run; apply Hfn);
    intros [a|e]; try (unfold emits; reflexivity).
  - apply emits_bind; [apply Huntil|]. intros []; reflexivity.
  - apply emits_bind; [apply Huntil|]. intros []; [reflexivity|].
    apply emits_bind; [unfold emits; simpl; rewrite Hwait; reflexivity|].
    intros _. apply IH.
  - destruct retryRejected; [|reflexivity].
    apply emits_bind; [unfold emits; simpl; rewrite Hwait; reflexivity|].
    intros _. apply IH.
Qed.

Lemma emits_cons {A} (P : event number -> bool) e t (r : outcome A) :
  P e = true -> forallb P t = true -> emits P (e :: t, r).
Proof. unfold emits. simpl. intros -> ->. reflexivity. Qed.

Lemma emits_weaken {A} (P Q : event number -> bool) (m : M number A) :
  (forall e, P e = true -> Q e = true) -> emits P m -> emits Q m.
Proof.
  unfold emits. intros HPQ. induction (fst m) as [|e t IH]; [reflexivity|].
  simpl. intros H. apply andb_true_iff in H. destruct H as [He Ht].
  rewrite (HPQ e He), (IH Ht). reflexivity.
Qed.

Lemma emits_count {A} (P kind : event number -> bool) (m : M number A) :
  (forall e, P e = true -> kind e = false) -> emits P m -> count kind (fst m) = 0.
Proof.
  unfold emits, count. intros HPk. induction (fst m) as [|e t IH]; [reflexivity|].
  simpl. intros H. apply andb_true_iff in H. destruct H as [He Ht].
  rewrite (HPk e He). apply IH, Ht.
Qed.

Lemma findFailure_emits (runs : list CheckRun) :
  emits isAttemptEvent (findFailure (number := number) runs).
Proof.
  induction runs as [|o rest IH]; [reflexivity|].
  cbn [findFailure]. apply emits_bind; [reflexivity|]. intros _.
  destruct (run_conclusion o) as [c|]; [destruct (c =? "failure")|]; auto.
  reflexivity.
Qed.

Lemma checkLoop_emits (checkResults : list (list CheckRun)) :
  emits isAttemptEvent (checkLoop context checkResults).
Proof.
  induction checkResults as [|runs rest IH]; [reflexivity|].
  cbn [checkLoop]. destruct (existsb _ _); [reflexivity|].
  apply emits_bind; [apply findFailure_emits|]. intros []; [reflexivity|exact IH].
Qed.

Lemma checkAttempt_emits suites o r k :
  emits isAttemptEvent (checkAttempt context suites o r k).
Proof.
  unfold checkAttempt. apply emits_bind; [|intros; apply checkLoop_emits].
  apply emits_Promise_all. intros p Hin. apply in_map_iff in Hin.
  destruct Hin as [suite [<- _]]. reflexivity.
Qed.

Lemma untilNotNull_emits (lastResult : option bool) :
  emits isCiEvent (untilNotNull (number := number) lastResult).
Proof. destruct lastResult; reflexivity. Qed.

(** The two ways a run of the gate goes: the suites are listed and the
    retry loop decides, or listing them fails and the gate answers false. *)
Lemma isCiGreen_eq sha p :
  isCiGreen context retryRejected sha p
  = match checks_listSuitesForRef (octokit context) (owner p) (repo p) sha with
    | Resolved checkSuites =>
        let loop := retryAsync retryRejected
                      (checkAttempt context checkSuites (owner p) (repo p))
                      untilNotNull 100 60000 in
        (Request (ChecksListSuitesForRef (owner p) (repo p) sha) :: fst loop, snd loop)
    | Rejected e =>
        ([Request (ChecksListSuitesForRef (owner p) (repo p) sha);
          Log Err (MsgErrorCheckingCi e)], Resolved (Some false))
    end.
Proof.
  unfold isCiGreen, adopt, await.
  destruct (checks_listSuitesForRef _ _ _ _) as [checkSuites|e]; [|reflexivity].
  cbv zeta. cbn [bind tryCatch ret app].
  generalize (retryAsync retryRejected
                (checkAttempt context checkSuites (owner p) (repo p))
                untilNotNull 100 60000).
  intros [t r]. reflexivity.
Qed.

Lemma isCiGreen_emits sha p :
  emits isCiEvent (isCiGreen context retryRejected sha p).
Proof.
  rewrite isCiGreen_eq.
  destruct (checks_listSuitesForRef _ _ _ _) as [checkSuites|e]; [|reflexivity].
  cbv zeta. apply emits_cons; [reflexivity|]. unfold retryAsync.
  apply (emits_retryLoop isCiEvent); [| apply untilNotNull_emits | reflexivity].
  intros k. eapply emits_weaken; [|apply checkAttempt_emits].
  intros [[]| |]; simpl; congruence.
Qed.

Lemma getApprovalCount_emits p :
  emits isReviewEvent (getApprovalCount context p).
Proof.
  unfold getApprovalCount. apply emits_tryCatch.
  - apply emits_bind; [reflexivity|]. intros; reflexivity.
  - intros e. reflexivity.
Qed.

Lemma untilNotNull_total (lastResult : option bool) :
  exists b, snd (untilNotNull (number := number) lastResult) = Resolved b.
Proof. destruct lastResult; simpl; eauto. Qed.

Lemma isCiGreen_listed sha p checkSuites :
  checks_listSuitesForRef (octokit context) (owner p) (repo p) sha
  = Resolved checkSuites ->
  let loop := retryLoop retryRejected
                (checkAttempt context checkSuites (owner p) (repo p))
                untilNotNull 60000 99 1 in
  isCiGreen context retryRejected sha p
  = (Request (ChecksListSuitesForRef (owner p) (repo p) sha) :: fst loop, snd loop).
Proof.
  intros H. rewrite isCiGreen_eq, H. unfold retryAsync. cbv zeta. reflexivity.
Qed.

Lemma isCiGreen_listed_run sha p checkSuites :
  checks_listSuitesForRef (octokit context) (owner p) (repo p) sha
  = Resolved checkSuites ->
  let loop := retryLoop retryRejected
                (checkAttempt context checkSuites (owner p) (repo p))
                untilNotNull 60000 99 1 in
  fst (isCiGreen context retryRejected sha p)
  = [Request (ChecksListSuitesForRef (owner p) (repo p) sha)] ++ fst loop
  /\ snd (isCiGreen context retryRejected sha p) = snd loop.
Proof.
  intros H. rewrite (isCiGreen_listed _ _ _ H). cbv zeta.
  generalize (retryLoop retryRejected
                (checkAttempt context checkSuites (owner p) (repo p))
                untilNotNull 60000 99 1).
  intros [t r]. split; reflexivity.
Qed.

Lemma checkAttempt_no_wait checkSuites o r k :
  count isWait (fst (checkAttempt context checkSuites o r k)) = 0.
Proof.
  apply (emits_count isAttemptEvent); [|apply checkAttempt_emits].
  intros [[]| |]; simpl; congruence.
Qed.

Lemma untilNotNull_no_wait (lastResult : option bool) :
  count isWait (fst (untilNotNull (number := number) lastResult)) = 0.
Proof. destruct lastResult; reflexivity. Qed.

(** C3 (amended).  Once the suites are listed, the gate waits 60 seconds
    between two attempts and makes at most 100 of them (99 waits); the
    first attempt with a result that is not indeterminate ends the loop
    with that result; after 100 indeterminate attempts the loop gives up
    with the error of ts-retry, without a further wait: the indeterminate
    value is not returned.  The loop is a recursion on the attempts left,
    so every run ends, and the time waited is the number of waits times
    60000 ms. *)
Theorem isCiGreen_polling sha p checkSuites :
  checks_listSuitesForRef (octokit context) (owner p) (repo p) sha
  = Resolved checkSuites ->
  let attempt k := snd (checkAttempt context checkSuites (owner p) (repo p) k) in
  let run := isCiGreen context retryRejected sha p in
  count isWait (fst run) <= 99
  /\ forallb (waitsFor 60000) (fst run) = true
  /\ totalWait (fst run) = (Z.of_nat (count isWait (fst run)) * 60000)%Z
  /\ (forall k verdict,
        1 <= k <= 100 ->
        (forall j, 1 <= j < k -> attempt j = Resolved None) ->
        attempt k = Resolved (Some verdict) ->
        snd run = Resolved (Some verdict) /\ count isWait (fst run) = k - 1)
  /\ ((forall j, 1 <= j <= 100 -> attempt j = Resolved None) ->
      snd run = Rejected TooManyTries
      /\ snd run <> Resolved None
      /\ count isWait (fst run) = 99).
Proof.
  intros Hlisted attempt run. subst run.
  rewrite (isCiGreen_listed _ _ _ Hlisted). cbv zeta.
  pose proof (retryLoop_waits _ (checkAttempt context checkSuites (owner p) (repo p))
                untilNotNull 60000
                (checkAttempt_no_wait checkSuites (owner p) (repo p))
                untilNotNull_no_wait untilNotNull_total 99 1) as Hwaits.
  pose proof (retryLoop_stops _ (checkAttempt context checkSuites (owner p) (repo p))
                untilNotNull 60000
                (checkAttempt_no_wait checkSuites (owner p) (repo p))
                untilNotNull_no_wait) as Hstops.
  pose proof (retryLoop_exhausted _ (checkAttempt context checkSuites (owner p) (repo p))
                untilNotNull 60000
                (checkAttempt_no_wait checkSuites (owner p) (repo p))
                untilNotNull_no_wait 99 1) as Hexhausted.
  assert (Hdelay : forallb (waitsFor 60000)
            (fst (retryLoop retryRejected
                    (checkAttempt context checkSuites (owner p) (repo p))
                    untilNotNull 60000 99 1)) = true).
  { apply (emits_retryLoop (waitsFor 60000)); [| |reflexivity].
    - intros k. eapply emits_weaken; [|apply checkAttempt_emits].
      intros [[]| |]; simpl; congruence.
    - intros [b|]; reflexivity. }
  specialize (fun j a => Hstops j 99 1 a).
  cbv zeta in Hwaits.
  revert Hwaits Hstops Hexhausted Hdelay.
  generalize (retryLoop retryRejected
                (checkAttempt context checkSuites (owner p) (repo p))
                untilNotNull 60000 99 1).
  intros [t r] [Hcount Htotal] Hstops Hexhausted Hdelay.
  change (fst (Request (ChecksListSuitesForRef (owner p) (repo p) sha) :: fst (t, r),
               snd (t, r)))
    with ([Request (ChecksListSuitesForRef (owner p) (repo p) sha)] ++ t).
  change (snd (Request (ChecksListSuitesForRef (owner p) (repo p) sha) :: fst (t, r),
               snd (t, r))) with r.
  cbn [fst snd] in *.
  rewrite count_app, totalWait_app, forallb_app.
  change (count isWait [Request (ChecksListSuitesForRef (owner p) (repo p) sha)])
    with 0.
  change (totalWait [Request (ChecksListSuitesForRef (owner p) (repo p) sha)])
    with 0%Z.
  change (forallb (waitsFor 60000)
            [Request (ChecksListSuitesForRef (owner p) (repo p) sha)]) with true.
  rewrite Nat.add_0_l, Z.add_0_l, andb_true_l.
  split; [exact Hcount|]. split; [exact Hdelay|]. split; [exact Htotal|]. split.
  - intros k verdict Hk Hbefore Hat.
    apply (Hstops (k - 1) (Some verdict)).
    + lia.
    + intros i Hi. exists None. split; [|reflexivity].
      apply (Hbefore (1 + i)). lia.
    + replace (1 + (k - 1)) with k by lia. exact Hat.
    + reflexivity.
  - intros Hall.
    destruct Hexhausted as [Hr Hc].
    + intros i Hi. exists None. split; [|reflexivity].
      apply (Hall (1 + i)). lia.
    + rewrite Hr, Hc. repeat split; [discriminate].
Qed.

(** ** The orchestrator *)

(** An open pull request that is due: the requests and log lines of its
    item, with the decision after the due check. *)
Lemma processPullRequest_due url p details activity :
  parseGitHubUrl Number URL_pathname url = Resolved p ->
  pulls_get (octokit context) p = Resolved details ->
  merged details = false ->
  truthy (closed_at details) = false ->
  getAllTimelineEvents context p = Resolved activity ->
  let lastActivityDate := maxDate (eventDates Date_parse activity) in
  let requirements := requirementsOf context (author_association details) in
  isDue ms context lastActivityDate (mergeTimeout requirements) = Resolved true ->
  processPullRequest Number URL_pathname Date_parse ms context retryRejected url
  = ([Request (PullsGet p); Log Debug (MsgProcessing url);
      Request (TimelineEvents p);
      Log Debug (MsgRequirements (author_association details) requirements
                                 lastActivityDate)]
     ++ decisionTrace context retryRejected url p details lastActivityDate,
     Resolved tt).
Proof.
  intros Hparse Hget Hmerged Hclosed Htimeline last requirements Hdue.
  unfold processPullRequest, getPullRequestDetails, decisionTrace.
  rewrite Hparse. unfold settle at 1. cbn [bind]. unfold await at 1. rewrite Hget.
  cbn [bind log]. rewrite Hmerged, Hclosed. cbn [orb].
  unfold settle at 1. cbn [bind]. unfold await at 1. rewrite Htimeline. cbn [bind].
  unfold getMergeTimeoutAndApprovalRequiredCount. cbn [bind ret log].
  fold (requirementsOf context (author_association details)). fold requirements.
  fold last. rewrite Hdue. unfold settle at 1. cbn [bind].
  generalize (getApprovalCount context p). intros [ta [n|e]]; cbn [bind fst snd].
  - destruct (requiredApprovalCount requirements <=? Z.of_nat n)%Z.
    + generalize (isCiGreen context retryRejected (head_sha details) p).
      intros [tc [[[|]|]|e]]; cbn [bind fst snd log tryCatch app].
      * unfold mergePullRequest, mergeTrace, await.
        destruct (pullRequest_delete context url) as [[]|e]; cbn [bind tryCatch app log].
        -- destruct (pulls_merge (octokit context) p) as [[]|e];
             cbn [bind tryCatch app log]; rewrite <- ?app_assoc; reflexivity.
        -- rewrite <- ?app_assoc. reflexivity.
      * rewrite <- ?app_assoc. reflexivity.
      * rewrite <- ?app_assoc. reflexivity.
      * rewrite <- ?app_assoc. reflexivity.
    + cbn [bind fst snd log tryCatch app]. rewrite <- ?app_assoc. reflexivity.
  - cbn [bind fst snd log tryCatch app]. rewrite <- ?app_assoc. reflexivity.
Qed.

Lemma getApprovalCount_quiet p :
  count isMerge (fst (getApprovalCount context p)) = 0
  /\ count isDelete (fst (getApprovalCount context p)) = 0.
Proof.
  split; apply (emits_count isReviewEvent); try apply getApprovalCount_emits;
    intros [[]| |]; simpl; congruence.
Qed.

Lemma isCiGreen_quiet sha p :
  count isMerge (fst (isCiGreen context retryRejected sha p)) = 0
  /\ count isDelete (fst (isCiGreen context retryRejected sha p)) = 0.
Proof.
  split; apply (emits_count isCiEvent); try apply isCiGreen_emits;
    intros [[]| |]; simpl; congruence.
Qed.

(** The trace of an open pull request that is due, has the approvals and
    a green gate: the checks, then the delete and what follows it. *)
Lemma processPullRequest_ready url p details activity n :
  parseGitHubUrl Number URL_pathname url = Resolved p ->
  pulls_get (octokit context) p = Resolved details ->
  merged details = false ->
  truthy (closed_at details) = false ->
  getAllTimelineEvents context p = Resolved activity ->
  let lastActivityDate := maxDate (eventDates Date_parse activity) in
  let requirements := requirementsOf context (author_association details) in
  isDue ms context lastActivityDate (mergeTimeout requirements) = Resolved true ->
  snd (getApprovalCount context p) = Resolved n ->
  (requiredApprovalCount requirements <= Z.of_nat n)%Z ->
  snd (isCiGreen context retryRejected (head_sha details) p) = Resolved (Some true) ->
  exists before,
    processPullRequest Number URL_pathname Date_parse ms context retryRejected url
    = (before ++ mergeTrace context url p, Resolved tt)
    /\ count isMerge before = 0 /\ count isDelete before = 0.
Proof.
  intros Hparse Hget Hmerged Hclosed Htimeline last requirements Hdue Hn Hreq Hgreen.
  rewrite (processPullRequest_due _ _ _ _ Hparse Hget Hmerged Hclosed Htimeline Hdue).
  fold last. fold requirements. unfold decisionTrace. fold requirements.
  rewrite Hn, Hgreen. apply Z.leb_le in Hreq. rewrite Hreq.
  destruct (getApprovalCount_quiet p) as [Ham Had].
  destruct (isCiGreen_quiet (head_sha details) p) as [Hcm Hcd].
  revert Ham Had Hcm Hcd.
  generalize (fst (getApprovalCount context p)).
  generalize (fst (isCiGreen context retryRejected (head_sha details) p)).
  intros tc ta Ham Had Hcm Hcd.
  exists ([Request (PullsGet p); Log Debug (MsgProcessing url);
           Request (TimelineEvents p);
           Log Debug (MsgRequirements (author_association details) requirements last)]
          ++ ta ++ tc
          ++ [Log Info (MsgWillMerge url (mergeTimeout requirements) last)]).
  split; [|split].
  - f_equal. rewrite <- !app_assoc. reflexivity.
  - rewrite !count_app, Ham, Hcm. reflexivity.
  - rewrite !count_app, Had, Hcd. reflexivity.
Qed.


(** C10.  When the store has deleted the URL and the merge call then
    fails, the item ends with the delete request, the merge request and the
    error logged by the handler of the item; nothing puts the URL back, so
    it is tracked no more; the item itself settles without an error, and
    the loop goes on with the next tracked pull request. *)
Theorem merge_failure_keeps_deletion url p details activity n e rest :
  parseGitHubUrl Number URL_pathname url = Resolved p ->
  pulls_get (octokit context) p = Resolved details ->
  merged details = false ->
  truthy (closed_at details) = false ->
  getAllTimelineEvents context p = Resolved activity ->
  let lastActivityDate := maxDate (eventDates Date_parse activity) in
  let requirements := requirementsOf context (author_association details) in
  isDue ms context lastActivityDate (mergeTimeout requirements) = Resolved true ->
  snd (getApprovalCount context p) = Resolved n ->
  (requiredApprovalCount requirements <= Z.of_nat n)%Z ->
  snd (isCiGreen context retryRejected (head_sha details) p) = Resolved (Some true) ->
  pullRequest_delete context url = Resolved tt ->
  pulls_merge (octokit context) p = Rejected e ->
  let process := processPullRequest Number URL_pathname Date_parse ms context
                                    retryRejected in
  snd (process url) = Resolved tt
  /\ (exists before,
        fst (process url)
        = before ++ [Request (StoreDelete url); Request (PullsMerge p);
                     Log Err (MsgCouldNotProcess url e)]
        /\ count isDelete before = 0 /\ count isMerge before = 0)
  /\ (forall tracked,
        ~ In url (trackedAfter (pullRequest_delete context) (fst (process url)) tracked))
  /\ forOf (url :: rest) process
     = (fst (process url) ++ fst (forOf rest process), snd (forOf rest process))
  /\ (getRepositories context = Resolved (Some (url :: rest)) ->
      updatePullRequests Number URL_pathname Date_parse ms context retryRejected
      = (Request GetRepositories :: fst (process url) ++ fst (forOf rest process),
         snd (forOf rest process))).
Proof.
  intros Hparse Hget Hmerged Hclosed Htimeline last requirements Hdue Hn Hreq Hgreen
         Hdelete Hmerge process.
  assert (Hloop : forOf (url :: rest) process
                  = (fst (process url) ++ fst (forOf rest process),
                     snd (forOf rest process))).
  { destruct (processPullRequest_ready _ _ _ _ _ Hparse Hget Hmerged Hclosed Htimeline
                Hdue Hn Hreq Hgreen) as [before [Hrun _]].
    subst process. cbn [forOf]. rewrite Hrun.
    rewrite (bind_resolved _ _ tt) by reflexivity. reflexivity. }
  assert (Hall : getRepositories context = Resolved (Some (url :: rest)) ->
                 updatePullRequests Number URL_pathname Date_parse ms context
                                    retryRejected
                 = (Request GetRepositories
                    :: fst (process url) ++ fst (forOf rest process),
                    snd (forOf rest process))).
  { intros Hrepos. unfold updatePullRequests, await. rewrite Hrepos.
    cbn [bind]. fold process. rewrite Hloop. reflexivity. }
  revert Hloop Hall.
  destruct (processPullRequest_ready _ _ _ _ _ Hparse Hget Hmerged Hclosed Htimeline
              Hdue Hn Hreq Hgreen) as [before [Hrun [Hbm Hbd]]].
  subst process. rewrite Hrun. cbn [fst snd]. unfold mergeTrace.
  rewrite Hdelete, Hmerge. intros Hloop Hall.
  split; [reflexivity|]. split; [|split; [|split]].
  - exists before. auto.
  - intros tracked. apply trackedAfter_deleted. exact Hdelete.
  - exact Hloop.
  - exact Hall.
Qed.

(** C9.  A tracked pull request whose details show it merged, or closed,
    gets one delete request to the store and nothing after it but the log
    line of a delete that failed: no timeline, review or check request and
    no merge call, so a later run merges nothing either; the item settles,
    and once the store has answered the URL is tracked no more. *)
Theorem closed_pull_request_untracked url p details :
  parseGitHubUrl Number URL_pathname url = Resolved p ->
  pulls_get (octokit context) p = Resolved details ->
  merged details || truthy (closed_at details) = true ->
  let item := processPullRequest Number URL_pathname Date_parse ms context
                                 retryRejected url in
  fst item
  = [Request (PullsGet p); Log Debug (MsgProcessing url);
     Log Info (MsgAlreadyMergedOrClosed url); Request (StoreDelete url)]
    ++ match pullRequest_delete context url with
       | Resolved _ => []
       | Rejected e => [Log Err (MsgFailedToDelete url e)]
       end
  /\ snd item = Resolved tt
  /\ count isMerge (fst item) = 0
  /\ count isDelete (fst item) = 1
  /\ (pullRequest_delete context url = Resolved tt ->
      forall tracked,
        ~ In url (trackedAfter (pullRequest_delete context) (fst item) tracked)).
Proof.
  intros Hparse Hget Hclosed item.
  assert (Hrun : item
    = ([Request (PullsGet p); Log Debug (MsgProcessing url);
        Log Info (MsgAlreadyMergedOrClosed url); Request (StoreDelete url)]
       ++ match pullRequest_delete context url with
          | Resolved _ => []
          | Rejected e => [Log Err (MsgFailedToDelete url e)]
          end, Resolved tt)).
  { subst item. unfold processPullRequest, getPullRequestDetails.
    rewrite Hparse. unfold settle at 1. cbn [bind]. unfold await at 1. rewrite Hget.
    cbn [bind log]. rewrite Hclosed. unfold await.
    destruct (pullRequest_delete context url) as [[]|e]; reflexivity. }
  rewrite Hrun. cbn [fst snd].
  split; [reflexivity|]. split; [reflexivity|]. split; [|split].
  - destruct (pullRequest_delete context url); reflexivity.
  - destruct (pullRequest_delete context url); reflexivity.
  - intros Hdelete tracked.
    apply (trackedAfter_deleted _ [Request (PullsGet p); Log Debug (MsgProcessing url);
                                   Log Info (MsgAlreadyMergedOrClosed url)]).
    exact Hdelete.
Qed.

Lemma eventDates_invalid (activity : list IssueEvent) :
  Date_parse EmptyString = None ->
  Forall (fun event =>
            forall s, In (Some s) [created_at event; updated_at event;
                                   timestamp event; commented_at event] ->
                      Date_parse s = None) activity ->
  eventDates Date_parse activity = [].
Proof.
  intros Hempty Hall. induction Hall as [|event rest Hev _ IH]; [reflexivity|].
  cbn [eventDates flat_map]. fold (eventDates Date_parse rest). rewrite IH.
  assert (Hd : eventDate Date_parse event = None).
  { unfold eventDate.
    destruct (created_at event) as [[|c1 s1]|] eqn:E1; cbn [or_else];
      try solve [apply Hev; rewrite <- E1; simpl; auto 6];
    destruct (updated_at event) as [[|c2 s2]|] eqn:E2; cbn [or_else];
      try solve [apply Hev; rewrite <- E2; simpl; auto 6];
    destruct (timestamp event) as [[|c3 s3]|] eqn:E3; cbn [or_else];
      try solve [apply Hev; rewrite <- E3; simpl; auto 6];
    destruct (commented_at event) as [[|c4 s4]|] eqn:E4; cbn [or_else];
      try solve [apply Hev; rewrite <- E4; simpl; auto 6];
    exact Hempty. }
  rewrite Hd. reflexivity.
Qed.

Lemma getApprovalCount_run p :
  getApprovalCount context p
  = match pulls_listReviews (octokit context) p with
    | Resolved reviews =>
        ([Request (PullsListReviews p)],
         Resolved (length (filter (fun review => review_state review =? "APPROVED")
                                  reviews)))
    | Rejected e =>
        ([Request (PullsListReviews p); Log Err (MsgErrorFetchingReviews e)],
         Resolved 0)
    end.
Proof.
  unfold getApprovalCount, await.
  destruct (pulls_listReviews (octokit context) p); reflexivity.
Qed.

(** C7.  When no event of the timeline of a tracked open pull request has
    a valid timestamp in any of the four fields, the date of the last
    activity is invalid and the pull request counts as due, whatever the
    timeout is: the reviews are requested, and with enough approvals the
    check suites of the head commit are. *)
Theorem no_timestamp_is_due url p details activity :
  Date_parse EmptyString = None ->
  parseGitHubUrl Number URL_pathname url = Resolved p ->
  pulls_get (octokit context) p = Resolved details ->
  merged details = false ->
  truthy (closed_at details) = false ->
  getAllTimelineEvents context p = Resolved activity ->
  Forall (fun event =>
            forall s, In (Some s) [created_at event; updated_at event;
                                   timestamp event; commented_at event] ->
                      Date_parse s = None) activity ->
  let requirements := requirementsOf context (author_association details) in
  let item := processPullRequest Number URL_pathname Date_parse ms context
                                 retryRejected url in
  maxDate (eventDates Date_parse activity) = None
  /\ isDue ms context (maxDate (eventDates Date_parse activity))
                     (mergeTimeout requirements) = Resolved true
  /\ item = ([Request (PullsGet p); Log Debug (MsgProcessing url);
              Request (TimelineEvents p);
              Log Debug (MsgRequirements (author_association details)
                                         requirements None)]
             ++ decisionTrace context retryRejected url p details None,
             Resolved tt)
  /\ In (Request (PullsListReviews p)) (fst item)
  /\ (forall n,
        snd (getApprovalCount context p) = Resolved n ->
        (requiredApprovalCount requirements <= Z.of_nat n)%Z ->
        In (Request (ChecksListSuitesForRef (owner p) (repo p) (head_sha details)))
           (fst item)).
Proof.
  intros Hempty Hparse Hget Hmerged Hclosed Htimeline Hnone requirements item.
  pose proof (eventDates_invalid _ Hempty Hnone) as Hdates.
  assert (Hlast : maxDate (eventDates Date_parse activity) = None)
    by (rewrite Hdates; reflexivity).
  assert (Hdue : isDue ms context (maxDate (eventDates Date_parse activity))
                       (mergeTimeout requirements) = Resolved true)
    by (rewrite Hlast; reflexivity).
  pose proof (processPullRequest_due _ _ _ _ Hparse Hget Hmerged Hclosed Htimeline Hdue)
    as Hrun.
  cbv zeta in Hrun. rewrite Hlast in Hrun. fold requirements in Hrun. fold item in Hrun.
  split; [exact Hlast|]. split; [exact Hdue|]. split; [exact Hrun|].
  rewrite Hrun. cbn [fst]. unfold decisionTrace. fold requirements. split.
  - apply in_or_app. right. apply in_or_app. left.
    rewrite getApprovalCount_run. destruct (pulls_listReviews _ _); simpl; auto.
  - intros n Hn Hreq. apply in_or_app. right. apply in_or_app. right.
    rewrite Hn. apply Z.leb_le in Hreq. rewrite Hreq.
    apply in_or_app. left. rewrite isCiGreen_eq.
    destruct (checks_listSuitesForRef _ _ _ _); cbv zeta; apply in_eq.
Qed.

(** ** Failures of the fetches *)

(** The approval counter settles with a number whatever the fetch does,
    and with 0, after an error line, when the fetch fails. *)
Lemma getApprovalCount_never_rejects p :
  (exists n, snd (getApprovalCount context p) = Resolved n)
  /\ (forall e, pulls_listReviews (octokit context) p = Rejected e ->
        getApprovalCount context p
        = ([Request (PullsListReviews p); Log Err (MsgErrorFetchingReviews e)],
           Resolved 0)).
Proof.
  rewrite getApprovalCount_run. split.
  - destruct (pulls_listReviews _ _); simpl; eauto.
  - intros e ->. reflexivity.
Qed.

(** A failure to list the check suites is caught: the gate logs it and
    answers false. *)
Lemma isCiGreen_listing_failure sha p e :
  checks_listSuitesForRef (octokit context) (owner p) (repo p) sha = Rejected e ->
  isCiGreen context retryRejected sha p
  = ([Request (ChecksListSuitesForRef (owner p) (repo p) sha);
      Log Err (MsgErrorCheckingCi e)], Resolved (Some false)).
Proof. intros H. rewrite isCiGreen_eq, H. reflexivity. Qed.

Lemma retryLoop_rejected {A} (fn : nat -> M number A) until delay e :
  (forall k, snd (fn k) = Rejected e) ->
  forall more currentTry,
    snd (retryLoop retryRejected fn until delay more currentTry) = Rejected e.
Proof.
  intros Hfn. induction more as [|more' IH]; intros currentTry;
    rewrite retryLoop_eq, reify_run;
    rewrite (bind_resolved _ _ (snd (fn currentTry))) by reflexivity;
    cbn [snd]; rewrite Hfn; [reflexivity|].
  destruct retryRejected; [|reflexivity].
  rewrite (bind_resolved _ _ tt) by reflexivity. cbn [snd]. apply IH.
Qed.

(** A failure of the fetches of the attempts is not caught: when every
    attempt fails, the gate rejects with the error, and logs no error. *)
Lemma isCiGreen_attempts_rejected sha p checkSuites e :
  checks_listSuitesForRef (octokit context) (owner p) (repo p) sha
  = Resolved checkSuites ->
  (forall k, snd (checkAttempt context checkSuites (owner p) (repo p) k) = Rejected e) ->
  snd (isCiGreen context retryRejected sha p) = Rejected e
  /\ count isErrorLog (fst (isCiGreen context retryRejected sha p)) = 0.
Proof.
  intros Hlisted Hfail.
  destruct (isCiGreen_listed_run _ _ _ Hlisted) as [Hfst Hsnd].
  rewrite Hfst, Hsnd. split.
  - apply (retryLoop_rejected _ _ _ _ Hfail).
  - rewrite count_app. apply (emits_count isPollEvent).
    + intros [[]|[]|]; simpl; congruence.
    + apply emits_retryLoop; [| |reflexivity].
      * intros k. eapply emits_weaken; [|apply checkAttempt_emits].
        intros [[]|[]|]; simpl; congruence.
      * intros [b|]; reflexivity.
Qed.

(** ** Every stage of an item *)

Lemma processPullRequest_cases url :
  processPullRequest Number URL_pathname Date_parse ms context retryRejected url
  = (itemTrace Number URL_pathname Date_parse ms context retryRejected url,
     Resolved tt).
Proof.
  unfold processPullRequest, itemTrace, getPullRequestDetails.
  destruct (parseGitHubUrl Number URL_pathname url) as [p|e]; [|reflexivity].
  unfold settle at 1. cbn [bind]. unfold await at 1.
  destruct (pulls_get (octokit context) p) as [details|e]; [|reflexivity].
  cbn [bind log].
  destruct (merged details || truthy (closed_at details)).
  - unfold await. destruct (pullRequest_delete context url) as [[]|e]; reflexivity.
  - unfold settle at 1. cbn [bind]. unfold await at 1.
    destruct (getAllTimelineEvents context p) as [activity|e]; [|reflexivity].
    cbn [bind]. unfold getMergeTimeoutAndApprovalRequiredCount. cbn [bind ret log].
    fold (requirementsOf context (author_association details)).
    set (requirements := requirementsOf context (author_association details)).
    set (last := maxDate (eventDates Date_parse activity)).
    destruct (isDue ms context last (mergeTimeout requirements)) as [[|]|e];
      unfold settle at 1; cbn [bind]; try reflexivity.
    unfold decisionTrace. fold requirements.
    generalize (getApprovalCount context p). intros [ta [n|e]]; cbn [bind fst snd].
    + destruct (requiredApprovalCount requirements <=? Z.of_nat n)%Z.
      * generalize (isCiGreen context retryRejected (head_sha details) p).
        intros [tc [[[|]|]|e]]; cbn [bind fst snd log tryCatch app].
        -- unfold mergePullRequest, mergeTrace, await.
           destruct (pullRequest_delete context url) as [[]|e]; cbn [bind tryCatch app log].
           ++ destruct (pulls_merge (octokit context) p) as [[]|e];
                cbn [bind tryCatch app log]; rewrite <- ?app_assoc; reflexivity.
           ++ rewrite <- ?app_assoc. reflexivity.
        -- rewrite <- ?app_assoc. reflexivity.
        -- rewrite <- ?app_assoc. reflexivity.
        -- rewrite <- ?app_assoc. reflexivity.
      * cbn [bind fst snd log tryCatch app]. rewrite <- ?app_assoc. reflexivity.
    + cbn [bind fst snd log tryCatch app]. rewrite <- ?app_assoc. reflexivity.
Qed.

Lemma emits_not_in {A} (P : event number -> bool) (m : M number A) e :
  emits P m -> P e = false -> ~ In e (fst m).
Proof.
  unfold emits. intros Hall He Hin.
  rewrite forallb_forall in Hall. rewrite (Hall e Hin) in He. discriminate.
Qed.

Lemma decisionTrace_merge url p details last q :
  In (Request (PullsMerge q)) (decisionTrace context retryRejected url p details last) ->
  q = p
  /\ pullRequest_delete context url = Resolved tt
  /\ exists n,
       snd (getApprovalCount context p) = Resolved n
       /\ (requiredApprovalCount (requirementsOf context (author_association details))
           <= Z.of_nat n)%Z
       /\ snd (isCiGreen context retryRejected (head_sha details) p)
          = Resolved (Some true).
Proof.
  unfold decisionTrace. intros Hin. apply in_app_or in Hin. destruct Hin as [Hin|Hin].
  { exfalso. revert Hin. apply (emits_not_in isReviewEvent);
      [apply getApprovalCount_emits | reflexivity]. }
  destruct (snd (getApprovalCount context p)) as [n|e] eqn:Hn.
  2:{ destruct Hin as [H|[]]; discriminate. }
  destruct (requiredApprovalCount _ <=? Z.of_nat n)%Z eqn:Hreq.
  2:{ destruct Hin as [H|[]]; discriminate. }
  apply in_app_or in Hin. destruct Hin as [Hin|Hin].
  { exfalso. revert Hin. apply (emits_not_in isCiEvent);
      [apply isCiGreen_emits | reflexivity]. }
  destruct (snd (isCiGreen context retryRejected (head_sha details) p))
    as [[[|]|]|e] eqn:Hci; try (destruct Hin as [H|[]]; discriminate).
  destruct Hin as [H|Hin]; [discriminate|]. unfold mergeTrace in Hin.
  destruct (pullRequest_delete context url) as [[]|e].
  - destruct Hin as [H|[H|Hin]]; [discriminate| |].
    + injection H as <-. split; [reflexivity|]. split; [reflexivity|].
      exists n. apply Z.leb_le in Hreq. auto.
    + destruct (pulls_merge (octokit context) p); [destruct Hin|].
      destruct Hin as [H|[]]; discriminate.
  - destruct Hin as [H|[H|[]]]; discriminate.
Qed.

Lemma decisionTrace_delete url p details last u :
  In (Request (StoreDelete u)) (decisionTrace context retryRejected url p details last) ->
  u = url
  /\ exists n,
       snd (getApprovalCount context p) = Resolved n
       /\ (requiredApprovalCount (requirementsOf context (author_association details))
           <= Z.of_nat n)%Z
       /\ snd (isCiGreen context retryRejected (head_sha details) p)
          = Resolved (Some true).
Proof.
  unfold decisionTrace. intros Hin. apply in_app_or in Hin. destruct Hin as [Hin|Hin].
  { exfalso. revert Hin. apply (emits_not_in isReviewEvent);
      [apply getApprovalCount_emits | reflexivity]. }
  destruct (snd (getApprovalCount context p)) as [n|e] eqn:Hn.
  2:{ destruct Hin as [H|[]]; discriminate. }
  destruct (requiredApprovalCount _ <=? Z.of_nat n)%Z eqn:Hreq.
  2:{ destruct Hin as [H|[]]; discriminate. }
  apply in_app_or in Hin. destruct Hin as [Hin|Hin].
  { exfalso. revert Hin. apply (emits_not_in isCiEvent);
      [apply isCiGreen_emits | reflexivity]. }
  destruct (snd (isCiGreen context retryRejected (head_sha details) p))
    as [[[|]|]|e] eqn:Hci; try (destruct Hin as [H|[]]; discriminate).
  destruct Hin as [H|Hin]; [discriminate|]. unfold mergeTrace in Hin.
  assert (Hu : u = url).
  { destruct (pullRequest_delete context url) as [[]|e].
    - destruct Hin as [H|[H|Hin]]; [injection H; auto|discriminate|].
      destruct (pulls_merge (octokit context) p); [destruct Hin|].
      destruct Hin as [H|[]]; discriminate.
    - destruct Hin as [H|[H|[]]]; [injection H; auto|discriminate]. }
  split; [exact Hu|]. exists n. apply Z.leb_le in Hreq. auto.
Qed.

Lemma itemTrace_merge url p :
  In (Request (PullsMerge p))
     (itemTrace Number URL_pathname Date_parse ms context retryRejected url) ->
  readyToMerge Number URL_pathname Date_parse ms context retryRejected url p
  /\ pullRequest_delete context url = Resolved tt.
Proof.
  unfold itemTrace, readyToMerge.
  destruct (parseGitHubUrl Number URL_pathname url) as [q|e] eqn:Hparse.
  2:{ intros [H|[]]; discriminate. }
  intros [H|Hin]; [discriminate|].
  destruct (pulls_get (octokit context) q) as [details|e] eqn:Hget.
  2:{ destruct Hin as [H|[]]; discriminate. }
  destruct Hin as [H|Hin]; [discriminate|].
  destruct (merged details || truthy (closed_at details)) eqn:Hclosed.
  { destruct Hin as [H|[H|Hin]]; try discriminate.
    destruct (pullRequest_delete context url); [destruct Hin|].
    destruct Hin as [H|[]]; discriminate. }
  destruct Hin as [H|Hin]; [discriminate|].
  destruct (getAllTimelineEvents context q) as [activity|e] eqn:Htimeline.
  2:{ destruct Hin as [H|[]]; discriminate. }
  cbv zeta in Hin. destruct Hin as [H|Hin]; [discriminate|].
  destruct (isDue ms context _ _) as [[|]|e] eqn:Hdue;
    try (destruct Hin as [H|[]]; discriminate).
  apply decisionTrace_merge in Hin. destruct Hin as [-> [Hdel [n [Hn [Hreq Hci]]]]].
  split; [|exact Hdel].
  exists details, activity, n. rewrite Hget, Htimeline. auto 10.
Qed.

Lemma itemTrace_delete url u :
  In (Request (StoreDelete u))
     (itemTrace Number URL_pathname Date_parse ms context retryRejected url) ->
  u = url
  /\ (foundClosed Number URL_pathname context url
      \/ exists p,
           readyToMerge Number URL_pathname Date_parse ms context retryRejected url p).
Proof.
  unfold itemTrace, readyToMerge, foundClosed.
  destruct (parseGitHubUrl Number URL_pathname url) as [q|e] eqn:Hparse.
  2:{ intros [H|[]]; discriminate. }
  intros [H|Hin]; [discriminate|].
  destruct (pulls_get (octokit context) q) as [details|e] eqn:Hget.
  2:{ destruct Hin as [H|[]]; discriminate. }
  destruct Hin as [H|Hin]; [discriminate|].
  destruct (merged details || truthy (closed_at details)) eqn:Hclosed.
  { destruct Hin as [H|[H|Hin]]; try discriminate.
    - injection H as <-. split; [reflexivity|]. left. exists q, details.
      rewrite Hget. auto.
    - destruct (pullRequest_delete context url); [destruct Hin|].
      destruct Hin as [H|[]]; discriminate. }
  destruct Hin as [H|Hin]; [discriminate|].
  destruct (getAllTimelineEvents context q) as [activity|e] eqn:Htimeline.
  2:{ destruct Hin as [H|[]]; discriminate. }
  cbv zeta in Hin. destruct Hin as [H|Hin]; [discriminate|].
  destruct (isDue ms context _ _) as [[|]|e] eqn:Hdue;
    try (destruct Hin as [H|[]]; discriminate).
  apply decisionTrace_delete in Hin. destruct Hin as [-> [n [Hn [Hreq Hci]]]].
  split; [reflexivity|]. right. exists q, details, activity, n.
  rewrite Hget, Htimeline. auto 10.
Qed.

(** X9.  The merge API is called for a pull request only when the item
    found it open, due, approved often enough and with a green gate, and
    the store has deleted its URL. *)
Theorem merge_only_when_ready url p :
  In (Request (PullsMerge p))
     (fst (processPullRequest Number URL_pathname Date_parse ms context
                              retryRejected url)) ->
  readyToMerge Number URL_pathname Date_parse ms context retryRejected url p
  /\ pullRequest_delete context url = Resolved tt.
Proof. rewrite processPullRequest_cases. apply itemTrace_merge. Qed.

(** X10.  An item asks the store to delete no URL but its own, and only
    when it found the pull request merged or closed, or ready to merge. *)
Theorem delete_only_own_url url u :
  In (Request (StoreDelete u))
     (fst (processPullRequest Number URL_pathname Date_parse ms context
                              retryRejected url)) ->
  u = url
  /\ (foundClosed Number URL_pathname context url
      \/ exists p,
           readyToMerge Number URL_pathname Date_parse ms context retryRejected url p).
Proof. rewrite processPullRequest_cases. apply itemTrace_delete. Qed.

Lemma count_zero_or_in (kind : event number -> bool) (t : list (event number)) :
  count kind t = 0 \/ exists e, In e t /\ kind e = true.
Proof.
  unfold count. destruct (filter kind t) as [|e rest] eqn:Hf; [left; reflexivity|].
  right. exists e. apply filter_In. rewrite Hf. left. reflexivity.
Qed.

Lemma trackedAfter_no_delete answer (t : list (event number)) tracked :
  count isDelete t = 0 -> trackedAfter answer t tracked = tracked.
Proof.
  revert tracked. induction t as [|[[]|l m|d] t IH]; intros tracked;
    cbn [trackedAfter]; auto; try (intros H; apply IH; exact H).
  discriminate.
Qed.

(** X11.  For a tracked pull request that is neither found merged or
    closed nor ready to merge, whatever the reason (a URL that does not
    parse, a failed fetch, recent activity, a timeout that does not parse,
    too few approvals, a gate that is red, indeterminate or failing), the
    item calls neither the merge API nor the store, which keeps every URL
    it tracks. *)
Theorem gate_closed_leaves_store_alone url :
  ~ foundClosed Number URL_pathname context url ->
  (forall p,
     ~ readyToMerge Number URL_pathname Date_parse ms context retryRejected url p) ->
  let t := fst (processPullRequest Number URL_pathname Date_parse ms context
                                   retryRejected url) in
  count isMerge t = 0
  /\ count isDelete t = 0
  /\ (forall tracked, trackedAfter (pullRequest_delete context) t tracked = tracked).
Proof.
  intros Hopen Hnot t. subst t. rewrite processPullRequest_cases. cbn [fst].
  assert (Hd : count isDelete
                 (itemTrace Number URL_pathname Date_parse ms context retryRejected url)
               = 0).
  { destruct (count_zero_or_in isDelete
                (itemTrace Number URL_pathname Date_parse ms context retryRejected url))
      as [H|[[[]|l m|d] [Hin He]]]; try discriminate; [exact H|].
    exfalso. apply itemTrace_delete in Hin. destruct Hin as [_ [Hc|[p Hr]]].
    - exact (Hopen Hc).
    - exact (Hnot p Hr). }
  split; [|split; [exact Hd|]].
  - destruct (count_zero_or_in isMerge
                (itemTrace Number URL_pathname Date_parse ms context retryRejected url))
      as [H|[[[]|l m|d] [Hin He]]]; try discriminate; [exact H|].
    exfalso. apply itemTrace_merge in Hin. destruct Hin as [Hr _]. exact (Hnot p Hr).
  - intros tracked. apply trackedAfter_no_delete, Hd.
Qed.

Lemma forOf_items (l : list string) :
  forOf l (processPullRequest Number URL_pathname Date_parse ms context retryRejected)
  = (flat_map (fun url =>
                 fst (processPullRequest Number URL_pathname Date_parse ms context
                                         retryRejected url)) l,
     Resolved tt).
Proof.
  induction l as [|url rest IH]; [reflexivity|].
  cbn [forOf flat_map]. rewrite (bind_resolved _ _ tt)
    by (rewrite processPullRequest_cases; reflexivity).
  rewrite IH. reflexivity.
Qed.

Lemma updatePullRequests_cases :
  updatePullRequests Number URL_pathname Date_parse ms context retryRejected
  = match getRepositories context with
    | Rejected e => ([Request GetRepositories], Rejected e)
    | Resolved None | Resolved (Some []) =>
        ([Request GetRepositories; Log Info MsgNothingToDo], Resolved tt)
    | Resolved (Some l) =>
        (Request GetRepositories
         :: flat_map (fun url =>
                        fst (processPullRequest Number URL_pathname Date_parse ms
                                                context retryRejected url)) l,
         Resolved tt)
    end.
Proof.
  unfold updatePullRequests, await.
  destruct (getRepositories context) as [[[|url rest]|]|e]; try reflexivity.
  cbn [bind]. rewrite forOf_items. reflexivity.
Qed.

(** X8.  A run asks for the tracked list once.  If that fails the run
    rejects with the error; with no list or an empty one it logs that
    there is nothing to do; otherwise every tracked URL gets its item, in
    the order of the list, whatever failed in the items before it, and the
    run settles without an error. *)
Theorem updatePullRequests_trace :
  updatePullRequests Number URL_pathname Date_parse ms context retryRejected
  = match getRepositories context with
    | Rejected e => ([Request GetRepositories], Rejected e)
    | Resolved None | Resolved (Some []) =>
        ([Request GetRepositories; Log Info MsgNothingToDo], Resolved tt)
    | Resolved (Some l) =>
        (Request GetRepositories
         :: flat_map (fun url =>
                        fst (processPullRequest Number URL_pathname Date_parse ms
                                                context retryRejected url)) l,
         Resolved tt)
    end.
Proof. exact updatePullRequests_cases. Qed.

(** X12.  Whatever the tracked list holds, a run calls the merge API for
    a pull request only when one of the tracked URLs is that of this pull
    request, found open, due, approved often enough and with a green gate,
    and the store has deleted that URL. *)
Theorem run_merges_only_ready p :
  In (Request (PullsMerge p))
     (fst (updatePullRequests Number URL_pathname Date_parse ms context
                              retryRejected)) ->
  exists l url,
    getRepositories context = Resolved (Some l)
    /\ In url l
    /\ readyToMerge Number URL_pathname Date_parse ms context retryRejected url p
    /\ pullRequest_delete context url = Resolved tt.
Proof.
  rewrite updatePullRequests_cases.
  destruct (getRepositories context) as [[[|u rest]|]|e]; cbn [fst].
  - intros [H|[H|[]]]; discriminate.
  - intros [H|Hin]; [discriminate|].
    apply in_flat_map in Hin. destruct Hin as [url [Hurl Hin]].
    rewrite processPullRequest_cases in Hin. apply itemTrace_merge in Hin.
    exists (u :: rest), url. tauto.
  - intros [H|[H|[]]]; discriminate.
  - intros [H|[]]; discriminate.
Qed.

(** X13.  An open pull request with activity more recent than its timeout
    is left alone: after the details and the timeline nothing is
    requested, neither reviews nor checks, store or merge. *)
Theorem not_due_is_left_alone url p details activity :
  parseGitHubUrl Number URL_pathname url = Resolved p ->
  pulls_get (octokit context) p = Resolved details ->
  merged details || truthy (closed_at details) = false ->
  getAllTimelineEvents context p = Resolved activity ->
  let lastActivityDate := maxDate (eventDates Date_parse activity) in
  let requirements := requirementsOf context (author_association details) in
  isDue ms context lastActivityDate (mergeTimeout requirements) = Resolved false ->
  processPullRequest Number URL_pathname Date_parse ms context retryRejected url
  = ([Request (PullsGet p); Log Debug (MsgProcessing url);
      Request (TimelineEvents p);
      Log Debug (MsgRequirements (author_association details) requirements
                                 lastActivityDate);
      Log Info (MsgStillActive url lastActivityDate)], Resolved tt).
Proof.
  intros Hparse Hget Hopen Htimeline last requirements Hdue.
  rewrite processPullRequest_cases. unfold itemTrace.
  rewrite Hparse, Hget, Hopen, Htimeline. cbv zeta.
  fold last. fold requirements. rewrite Hdue. reflexivity.
Qed.

(** X14.  With fewer approvals than required the gate is not consulted:
    the item ends after the reviews, with no check request and no wait. *)
Theorem too_few_approvals_skip_ci url p details activity n :
  parseGitHubUrl Number URL_pathname url = Resolved p ->
  pulls_get (octokit context) p = Resolved details ->
  merged details || truthy (closed_at details) = false ->
  getAllTimelineEvents context p = Resolved activity ->
  let lastActivityDate := maxDate (eventDates Date_parse activity) in
  let requirements := requirementsOf context (author_association details) in
  isDue ms context lastActivityDate (mergeTimeout requirements) = Resolved true ->
  snd (getApprovalCount context p) = Resolved n ->
  (Z.of_nat n < requiredApprovalCount requirements)%Z ->
  let item := processPullRequest Number URL_pathname Date_parse ms context
                                 retryRejected url in
  item = ([Request (PullsGet p); Log Debug (MsgProcessing url);
           Request (TimelineEvents p);
           Log Debug (MsgRequirements (author_association details) requirements
                                      lastActivityDate)]
          ++ fst (getApprovalCount context p)
          ++ [Log Info (MsgInsufficientApprovals url)], Resolved tt)
  /\ count isWait (fst item) = 0
  /\ count isCheckRequest (fst item) = 0.
Proof.
  intros Hparse Hget Hopen Htimeline last requirements Hdue Hn Hfew item.
  assert (Hrun : item
    = ([Request (PullsGet p); Log Debug (MsgProcessing url);
        Request (TimelineEvents p);
        Log Debug (MsgRequirements (author_association details) requirements last)]
       ++ fst (getApprovalCount context p)
       ++ [Log Info (MsgInsufficientApprovals url)], Resolved tt)).
  { subst item. rewrite processPullRequest_cases. unfold itemTrace.
    rewrite Hparse, Hget, Hopen, Htimeline. cbv zeta.
    fold last. fold requirements. rewrite Hdue. unfold decisionTrace.
    fold requirements. rewrite Hn.
    apply Z.leb_gt in Hfew. rewrite Hfew. reflexivity. }
  split; [exact Hrun|]. rewrite Hrun. cbn [fst].
  rewrite !count_app.
  rewrite (emits_count isReviewEvent isWait (getApprovalCount context p))
    by (try apply getApprovalCount_emits; intros [[]| |]; simpl; congruence).
  rewrite (emits_count isReviewEvent isCheckRequest (getApprovalCount context p))
    by (try apply getApprovalCount_emits; intros [[]| |]; simpl; congruence).
  split; reflexivity.
Qed.

(** X15.  A tracked URL that does not parse costs one error line: no
    request is made for it, and the store is not asked to drop it. *)
Theorem malformed_url_is_skipped url e :
  parseGitHubUrl Number URL_pathname url = Rejected e ->
  processPullRequest Number URL_pathname Date_parse ms context retryRejected url
  = ([Log Err (MsgCouldNotProcess url e)], Resolved tt).
Proof.
  intros Hparse. rewrite processPullRequest_cases. unfold itemTrace.
  rewrite Hparse. reflexivity.
Qed.

(** X16.  A merge timeout that [ms] does not read ends the item of an
    open pull request with dated activity with the error of
    [isPastOffset], caught by the handler of the item: no review, check,
    store or merge request follows. *)
Theorem invalid_timeout_is_caught url p details activity t :
  parseGitHubUrl Number URL_pathname url = Resolved p ->
  pulls_get (octokit context) p = Resolved details ->
  merged details || truthy (closed_at details) = false ->
  getAllTimelineEvents context p = Resolved activity ->
  maxDate (eventDates Date_parse activity) = Some t ->
  let requirements := requirementsOf context (author_association details) in
  ms (mergeTimeout requirements) = None ->
  processPullRequest Number URL_pathname Date_parse ms context retryRejected url
  = ([Request (PullsGet p); Log Debug (MsgProcessing url);
      Request (TimelineEvents p);
      Log Debug (MsgRequirements (author_association details) requirements (Some t));
      Log Err (MsgCouldNotProcess url (Error "Invalid offset format"))],
     Resolved tt).
Proof.
  intros Hparse Hget Hopen Htimeline Hlast requirements Hms.
  rewrite processPullRequest_cases. unfold itemTrace.
  rewrite Hparse, Hget, Hopen, Htimeline. cbv zeta. rewrite Hlast.
  fold requirements. unfold isDue, isPastOffset. cbn [isNaN]. rewrite Hms.
  reflexivity.
Qed.

(** ** More on the CI gate *)

Lemma bind_resolved_inv {A B} (m : M number A) (k : A -> M number B) b :
  snd (bind m k) = Resolved b ->
  exists a, snd m = Resolved a /\ snd (k a) = Resolved b.
Proof.
  destruct m as [t [a|e]]; simpl; [|discriminate].
  destruct (k a) as [t' r'] eqn:Hk. simpl. intros ->. exists a. rewrite Hk. auto.
Qed.

Lemma retryLoop_resolved_from_attempt {A} (fn : nat -> M number A) until delay a :
  forall more currentTry,
    snd (retryLoop retryRejected fn until delay more currentTry) = Resolved a ->
    exists k, currentTry <= k <= currentTry + more /\ snd (fn k) = Resolved a.
Proof.
  induction more as [|more' IH]; intros currentTry; rewrite retryLoop_eq, reify_run;
    rewrite (bind_resolved _ _ (snd (fn currentTry))) by reflexivity; cbn [snd];
    destruct (snd (fn currentTry)) as [a0|e] eqn:Hfn.
  - intros H. apply bind_resolved_inv in H. destruct H as [stop [_ H]].
    assert (a0 = a) as -> by (destruct stop; simpl in H; congruence).
    exists currentTry. split; [lia|exact Hfn].
  - discriminate.
  - intros H. apply bind_resolved_inv in H. destruct H as [[|] [_ H]].
    + simpl in H. injection H as ->. exists currentTry. split; [lia|exact Hfn].
    + rewrite (bind_resolved _ _ tt) in H by reflexivity. cbn [snd] in H.
      apply IH in H. destruct H as [k [Hk Hr]]. exists k. split; [lia|exact Hr].
  - destruct retryRejected; [|discriminate].
    rewrite (bind_resolved _ _ tt) by reflexivity. cbn [snd]. intros H.
    apply IH in H. destruct H as [k [Hk Hr]]. exists k. split; [lia|exact Hr].
Qed.

Lemma settleAll_resolved {A} (rs : list (outcome A)) l :
  settleAll rs = Resolved l <-> rs = map Resolved l.
Proof.
  revert l. induction rs as [|[a|e] rs IH]; intros l; cbn [settleAll].
  - split; [intros H; injection H as <-; reflexivity|].
    destruct l; [reflexivity|discriminate].
  - destruct (settleAll rs) as [l'|e] eqn:Hs.
    + split.
      * intros H. injection H as <-. cbn [map]. f_equal. apply IH. reflexivity.
      * destruct l as [|a' l'']; [discriminate|]. cbn [map]. intros H.
        injection H as -> H. apply IH in H. congruence.
    + split; [discriminate|].
      destruct l as [|a' l'']; [discriminate|]. cbn [map]. intros H.
      injection H as -> H. apply IH in H. discriminate.
  - split; [discriminate|]. destruct l; discriminate.
Qed.

Lemma settleAll_rejected {A} (rs : list (outcome A)) e :
  settleAll rs = Rejected e -> In (Rejected e) rs.
Proof.
  induction rs as [|[a|e'] rs IH]; cbn [settleAll]; [discriminate| |].
  - destruct (settleAll rs); [discriminate|]. intros H. injection H as ->.
    right. apply IH. reflexivity.
  - intros H. injection H as ->. left. reflexivity.
Qed.

(** The fan-out of an attempt: a debug line and a request for each suite,
    in order, and the outcomes of the fetches taken together. *)
Lemma checkAttempt_fetches checkSuites o r k :
  Promise_all (number := number)
    (map (fun suite =>
            bind (log Debug (MsgCheckingSuite (suite_id suite) (suite_url suite)
                                              (env_workflowName context)))
                 (fun _ =>
                    await (ChecksListForSuite o r (suite_id suite))
                          (checks_listForSuite (octokit context) k o r (suite_id suite))))
         checkSuites)
  = (flat_map (fun suite =>
                 [Log Debug (MsgCheckingSuite (suite_id suite) (suite_url suite)
                                              (env_workflowName context));
                  Request (ChecksListForSuite o r (suite_id suite))]) checkSuites,
     settleAll (map (fun suite =>
                       checks_listForSuite (octokit context) k o r (suite_id suite))
                    checkSuites)).
Proof.
  induction checkSuites as [|suite rest IH]; [reflexivity|].
  cbn [map Promise_all flat_map settleAll]. rewrite IH.
  unfold log, await. cbn [bind app].
  destruct (checks_listForSuite (octokit context) k o r (suite_id suite)); reflexivity.
Qed.

Lemma findFailure_no_request (runs : list CheckRun) :
  filter isCheckRequest (fst (findFailure (number := number) runs)) = [].
Proof.
  induction runs as [|o rest IH]; [reflexivity|].
  cbn [findFailure]. rewrite (bind_resolved _ _ tt) by reflexivity.
  cbn [fst log]. rewrite filter_app. cbn [filter isCheckRequest app].
  destruct (run_conclusion o) as [c|]; [destruct (c =? "failure")|]; auto.
Qed.

Lemma checkLoop_no_request (checkResults : list (list CheckRun)) :
  filter isCheckRequest (fst (checkLoop context checkResults)) = [].
Proof.
  induction checkResults as [|runs rest IH]; [reflexivity|].
  cbn [checkLoop]. destruct (existsb _ _); [reflexivity|].
  rewrite (bind_resolved _ _ _ (findFailure_result _)). cbn [fst].
  rewrite filter_app, findFailure_no_request. cbn [app].
  destruct (existsb failed _); [reflexivity|exact IH].
Qed.

(** X5.  An attempt asks for the check runs of every suite once, in the
    order of the suites, also when a fetch before has failed; it fails
    only with the error of one of these fetches. *)
Theorem checkAttempt_asks_every_suite checkSuites o r k :
  filter isCheckRequest (fst (checkAttempt context checkSuites o r k))
  = map (fun suite => Request (ChecksListForSuite o r (suite_id suite))) checkSuites
  /\ (forall e,
        snd (checkAttempt context checkSuites o r k) = Rejected e ->
        exists suite,
          In suite checkSuites
          /\ checks_listForSuite (octokit context) k o r (suite_id suite) = Rejected e).
Proof.
  unfold checkAttempt. rewrite checkAttempt_fetches.
  set (answers := map (fun suite =>
                         checks_listForSuite (octokit context) k o r (suite_id suite))
                      checkSuites).
  assert (Hreq : forall l : list CheckSuite,
            filter isCheckRequest
              (flat_map (fun suite =>
                 [Log Debug (MsgCheckingSuite (suite_id suite) (suite_url suite)
                                              (env_workflowName context));
                  Request (ChecksListForSuite (number := number) o r (suite_id suite))]) l)
            = map (fun suite => Request (ChecksListForSuite o r (suite_id suite))) l).
  { induction l as [|s l IH]; [reflexivity|]. cbn [flat_map app filter isCheckRequest map].
    rewrite IH. reflexivity. }
  destruct (settleAll answers) as [results|e0] eqn:Hall.
  - rewrite (bind_resolved _ _ results) by reflexivity. cbn [fst snd]. split.
    + rewrite filter_app, checkLoop_no_request, app_nil_r. apply Hreq.
    + intros e He. rewrite checkLoop_result in He. discriminate.
  - rewrite (bind_rejected _ _ e0) by reflexivity. cbn [fst snd]. split.
    + apply Hreq.
    + intros e He. injection He as ->. apply settleAll_rejected in Hall.
      subst answers. apply in_map_iff in Hall. destruct Hall as [suite [Hs Hin]].
      exists suite. auto.
Qed.

Lemma verdictBySuite_true_iff wf (checkResults : list (list CheckRun)) :
  verdictBySuite wf checkResults = Some true <->
  (forall runs o, In runs checkResults -> In o (nonSelf wf runs) ->
                  run_status o = "completed" /\ run_conclusion o <> Some "failure").
Proof.
  induction checkResults as [|runs rest IH].
  - simpl. split; [intros _ ? ? []|reflexivity].
  - cbn [verdictBySuite].
    destruct (existsb pending (nonSelf wf runs)) eqn:Hp.
    + split; [discriminate|]. intros H. exfalso.
      apply existsb_exists in Hp. destruct Hp as [o [Ho Hpend]].
      destruct (H runs o (or_introl eq_refl) Ho) as [Hs _].
      unfold pending in Hpend. rewrite Hs in Hpend. discriminate.
    + destruct (existsb failed (nonSelf wf runs)) eqn:Hf.
      * split; [discriminate|]. intros H. exfalso.
        apply existsb_exists in Hf. destruct Hf as [o [Ho Hfail]].
        destruct (H runs o (or_introl eq_refl) Ho) as [_ Hc].
        unfold failed in Hfail. destruct (run_conclusion o) as [c|]; [|discriminate].
        apply String.eqb_eq in Hfail. subst c. apply Hc. reflexivity.
      * rewrite IH. split.
        -- intros H runs' o [<-|Hin] Ho; [|eapply H; eauto]. split.
           ++ destruct (pending o) eqn:E.
              ** assert (existsb pending (nonSelf wf runs) = true)
                   by (apply existsb_exists; eauto). congruence.
              ** unfold pending in E. apply negb_false_iff in E.
                 apply String.eqb_eq in E. exact E.
           ++ intros Hc.
              assert (failed o = true) by (unfold failed; rewrite Hc; reflexivity).
              assert (existsb failed (nonSelf wf runs) = true)
                by (apply existsb_exists; eauto). congruence.
        -- intros H runs' o Hin Ho. eapply H; [right|]; eauto.
Qed.

Lemma checkAttempt_green_iff checkSuites o r k :
  snd (checkAttempt context checkSuites o r k) = Resolved (Some true)
  <-> greenAt context checkSuites o r k.
Proof.
  unfold checkAttempt, greenAt. rewrite checkAttempt_fetches.
  set (answer := fun suite : CheckSuite =>
                   checks_listForSuite (octokit context) k o r (suite_id suite)).
  change (map (fun suite => checks_listForSuite (octokit context) k o r (suite_id suite))
              checkSuites) with (map answer checkSuites).
  destruct (settleAll (map answer checkSuites)) as [results|e] eqn:Hall.
  - rewrite (bind_resolved _ _ results) by reflexivity. cbn [snd].
    rewrite checkLoop_result. apply settleAll_resolved in Hall.
    split.
    + intros H. injection H as H.
      pose proof (proj1 (verdictBySuite_true_iff _ _) H) as Hgreen.
      clear H. revert results Hall Hgreen.
      induction checkSuites as [|s rest IH]; intros results Hall Hgreen suite Hin;
        [destruct Hin|].
      destruct results as [|runs results]; [discriminate|].
      cbn [map] in Hall. injection Hall as Hs Hrest.
      destruct Hin as [<-|Hin].
      * exists runs. split; [exact Hs|]. intros o' Ho'. apply (Hgreen runs); simpl; auto.
      * apply (IH results Hrest); [|exact Hin].
        intros runs' o' Hr Ho'. apply (Hgreen runs'); simpl; auto.
    + intros Hgreen. f_equal. apply verdictBySuite_true_iff.
      revert results Hall. induction checkSuites as [|s rest IH]; intros results Hall.
      * destruct results; [|discriminate]. intros ? ? [].
      * destruct results as [|runs results]; [discriminate|].
        cbn [map] in Hall. injection Hall as Hs Hrest.
        intros runs' o' [<-|Hr] Ho'.
        -- destruct (Hgreen s (or_introl eq_refl)) as [runs0 [H0 Hall0]].
           unfold answer in Hs. rewrite Hs in H0. injection H0 as <-. auto.
        -- apply (IH (fun suite Hin => Hgreen suite (or_intror Hin)) results Hrest
                     runs' o' Hr Ho').
  - rewrite (bind_rejected _ _ e) by reflexivity. cbn [snd].
    split; [discriminate|]. intros Hgreen. exfalso.
    apply settleAll_rejected, in_map_iff in Hall. destruct Hall as [suite [Hs Hin]].
    destruct (Hgreen suite Hin) as [runs [Hr _]]. unfold answer in Hs. congruence.
Qed.

(** X6.  The gate answers true only when the suites were listed and, at
    one of the at most 100 attempts, the check runs of every suite were
    fetched and those not named like the workflow were all completed, none
    with conclusion failure. *)
Theorem green_gate_had_green_attempt sha p :
  snd (isCiGreen context retryRejected sha p) = Resolved (Some true) ->
  exists checkSuites k,
    checks_listSuitesForRef (octokit context) (owner p) (repo p) sha
    = Resolved checkSuites
    /\ 1 <= k <= 100
    /\ greenAt context checkSuites (owner p) (repo p) k.
Proof.
  destruct (checks_listSuitesForRef (octokit context) (owner p) (repo p) sha)
    as [checkSuites|e] eqn:Hlisted.
  - destruct (isCiGreen_listed_run _ _ _ Hlisted) as [_ Hsnd]. rewrite Hsnd.
    intros H. apply retryLoop_resolved_from_attempt in H.
    destruct H as [k [Hk Hgreen]]. apply checkAttempt_green_iff in Hgreen.
    exists checkSuites, k. split; [reflexivity|]. split; [lia|exact Hgreen].
  - rewrite (isCiGreen_listing_failure _ _ _ Hlisted). discriminate.
Qed.

(** X7.  When the first attempt finds nothing pending and nothing failed
    among the check runs not named like the workflow, the gate answers
    true at once, without a wait; a commit with no check suite, or with no
    other run than the workflow's own, is such a case. *)
Theorem green_first_attempt_no_wait sha p checkSuites :
  checks_listSuitesForRef (octokit context) (owner p) (repo p) sha
  = Resolved checkSuites ->
  greenAt context checkSuites (owner p) (repo p) 1 ->
  snd (isCiGreen context retryRejected sha p) = Resolved (Some true)
  /\ count isWait (fst (isCiGreen context retryRejected sha p)) = 0.
Proof.
  intros Hlisted Hgreen. apply checkAttempt_green_iff in Hgreen.
  destruct (isCiGreen_listed_run _ _ _ Hlisted) as [Hfst Hsnd]. rewrite Hfst, Hsnd.
  destruct (retryLoop_stops _ (checkAttempt context checkSuites (owner p) (repo p))
              untilNotNull 60000
              (checkAttempt_no_wait checkSuites (owner p) (repo p))
              untilNotNull_no_wait 0 99 1 (Some true)) as [Hr Hc].
  - lia.
  - intros i Hi. lia.
  - exact Hgreen.
  - reflexivity.
  - rewrite count_app, Hr, Hc. auto.
Qed.

Lemma count_occ_filter (states : list string) :
  length (filter (fun s => s =? "APPROVED") states)
  = count_occ string_dec states "APPROVED".
Proof.
  induction states as [|s rest IH]; [reflexivity|]. cbn [filter count_occ].
  destruct (string_dec s "APPROVED") as [->|Hne].
  - rewrite String.eqb_refl. cbn [length]. rewrite IH. reflexivity.
  - apply String.eqb_neq in Hne. rewrite Hne. exact IH.
Qed.

(** X3.  The approval counter makes one request and always settles with a
    number: the number of reviews whose state is exactly APPROVED, at most
    the number of reviews, when the reviews are fetched, and 0, after one
    error line, when the fetch fails. *)
Theorem getApprovalCount_bounds p :
  (forall reviews,
     pulls_listReviews (octokit context) p = Resolved reviews ->
     getApprovalCount context p
     = ([Request (PullsListReviews p)],
        Resolved (count_occ string_dec (map review_state reviews) "APPROVED"))
     /\ count_occ string_dec (map review_state reviews) "APPROVED" <= length reviews)
  /\ (forall e,
        pulls_listReviews (octokit context) p = Rejected e ->
        getApprovalCount context p
        = ([Request (PullsListReviews p); Log Err (MsgErrorFetchingReviews e)],
           Resolved 0))
  /\ (exists n, snd (getApprovalCount context p) = Resolved n).
Proof.
  rewrite getApprovalCount_run. split; [|split].
  - intros reviews ->. rewrite <- count_occ_filter. split.
    + f_equal. f_equal. induction reviews as [|rv rest IH]; [reflexivity|].
      cbn [filter map]. destruct (review_state rv =? "APPROVED"); cbn [length];
        rewrite IH; reflexivity.
    + rewrite <- (length_map review_state reviews). apply filter_length_le.
  - intros e ->. reflexivity.
  - destruct (pulls_listReviews _ _); simpl; eauto.
Qed.

(** X4.  When listing the check suites fails, the gate logs the error and
    answers false at once: it asks for no check run and does not wait. *)
Theorem listing_failure_closes_gate sha p e :
  checks_listSuitesForRef (octokit context) (owner p) (repo p) sha = Rejected e ->
  isCiGreen context retryRejected sha p
  = ([Request (ChecksListSuitesForRef (owner p) (repo p) sha);
      Log Err (MsgErrorCheckingCi e)], Resolved (Some false))
  /\ count isWait (fst (isCiGreen context retryRejected sha p)) = 0.
Proof.
  intros H. rewrite (isCiGreen_listing_failure _ _ _ H). split; reflexivity.
Qed.

(** ** More on the URL parser *)

(** X1.  A path made of an owner, a repository, any third segment and a
    number segment, none of them holding a slash, is parsed back to that
    owner, that repository and the number read from the last segment: the
    host and the third segment are not looked at. *)
Theorem parseGitHubUrl_round_trip url o r kind n :
  freeOf slash o = true ->
  freeOf slash r = true ->
  freeOf slash kind = true ->
  freeOf slash n = true ->
  URL_pathname url = Resolved ("/" +++ o +++ "/" +++ r +++ "/" +++ kind +++ "/" +++ n) ->
  parseGitHubUrl Number URL_pathname url = Resolved (mkIssueParams o r (Number n)).
Proof.
  intros Ho Hr Hk Hn Hpath. unfold parseGitHubUrl. rewrite Hpath.
  assert (Hsplit : split slash ("/" +++ o +++ "/" +++ r +++ "/" +++ kind +++ "/" +++ n)
                   = [EmptyString; o; r; kind; n]).
  { change ("/" +++ o +++ "/" +++ r +++ "/" +++ kind +++ "/" +++ n)
      with (EmptyString +++ String slash (o +++ String slash
              (r +++ String slash (kind +++ String slash n)))).
    rewrite !split_app_sep.
    rewrite (split_freeOf _ _ Ho), (split_freeOf _ _ Hr), (split_freeOf _ _ Hk),
      (split_freeOf _ _ Hn). reflexivity. }
  rewrite Hsplit. reflexivity.
Qed.

(** X2.  What the parser returns was read off the path: the path is a
    first segment, the owner, the repository, a third segment and the
    segment of the number, with a slash between them, and neither the owner
    nor the repository holds a slash. *)
Theorem parseGitHubUrl_inversion url p :
  parseGitHubUrl Number URL_pathname url = Resolved p ->
  exists lead kind n,
    URL_pathname url
    = Resolved (lead +++ "/" +++ owner p +++ "/" +++ repo p +++ "/" +++ kind +++ "/" +++ n)
    /\ issue_number p = Number n
    /\ freeOf slash (owner p) = true
    /\ freeOf slash (repo p) = true
    /\ freeOf slash kind = true
    /\ freeOf slash n = true.
Proof.
  unfold parseGitHubUrl. destruct (URL_pathname url) as [pathname|e]; [|discriminate].
  pose proof (join_split slash pathname) as Hjoin.
  pose proof (split_segments_free slash pathname) as Hfree.
  destruct (split slash pathname) as [|s0 [|s1 [|s2 [|s3 [|s4 [|s5 rest]]]]]];
    try discriminate.
  cbn [length Nat.eqb negb nth]. intros H. injection H as <-. cbn [owner repo issue_number].
  cbn [join] in Hjoin. exists s0, s3, s4. rewrite <- Hjoin.
  pose proof (Forall_inv_tail Hfree) as H1. pose proof (Forall_inv_tail H1) as H2.
  pose proof (Forall_inv_tail H2) as H3. pose proof (Forall_inv_tail H3) as H4.
  pose proof (Forall_inv H1). pose proof (Forall_inv H2).
  pose proof (Forall_inv H3). pose proof (Forall_inv H4). auto 10.
Qed.

(** ** More on the search *)

Lemma termsOfTarget_scoped (o sign target : string) :
  sign = EmptyString \/ sign = "-" ->
  Forall (ownerScoped o) (termsOfTarget sign o target).
Proof.
  intros Hsign.
  assert (Horg : ownerScoped o (sign +++ "org:" +++ o))
    by (exists sign; split; [exact Hsign|left; reflexivity]).
  assert (Hrepo : forall name, ownerScoped o (sign +++ "repo:" +++ o +++ "/" +++ name))
    by (intros name; exists sign; split; [exact Hsign|right; exists name; reflexivity]).
  unfold termsOfTarget.
  destruct (split slash target) as [|seg [|[|c r] segs]]; [constructor| | |].
  - destruct seg; repeat constructor; auto.
  - destruct seg; repeat constructor; auto.
  - destruct (seg =? o); repeat constructor; auto.
Qed.

Lemma searchFilter_run (o : string) (targets : ReposWatchSettings) :
  repository_owner context = Some o ->
  searchFilter context targets
  = ret (flat_map (termsOfTarget EmptyString o)
                  (match monitor targets with
                   | [] => ["org: " +++ o]
                   | _ => monitor targets
                   end)
         ++ flat_map (termsOfTarget "-" o) (ignore targets)).
Proof.
  intros Ho. unfold searchFilter. rewrite Ho.
  rewrite (reduceTargets_terms o EmptyString) by (auto; reflexivity).
  cbn [bind ret].
  rewrite (reduceTargets_terms o "-") by (auto; reflexivity).
  destruct (monitor targets); reflexivity.
Qed.

(** X17.  With the owner of the current repository known, whatever the
    watch settings are, every term of the search filter names that owner,
    as [org:owner] or [repo:owner/...], negated or not; one search request
    is made, its result is handed on, and its failure is logged once and
    raised again. *)
Theorem search_is_owner_scoped (o : string) (targets : ReposWatchSettings) :
  repository_owner context = Some o ->
  exists filter,
    searchFilter context targets = ret filter
    /\ Forall (ownerScoped o) filter
    /\ getOpenPullRequests context targets
       = let q := "is:pr is:open draft:false " +++ join " " filter in
         match search_issuesAndPullRequests (octokit context) q with
         | Resolved data => ([Request (SearchIssuesAndPullRequests q)], Resolved data)
         | Rejected e =>
             ([Request (SearchIssuesAndPullRequests q);
               Log Err (MsgErrorOpenPullRequests filter e)], Rejected e)
         end.
Proof.
  intros Ho. eexists. split; [apply (searchFilter_run o targets Ho)|]. split.
  - apply Forall_app. split; apply Forall_flat_map, Forall_forall; intros target _;
      apply termsOfTarget_scoped; auto.
  - unfold getOpenPullRequests. rewrite (searchFilter_run o targets Ho).
    cbn [bind ret app]. cbv zeta.
    destruct (search_issuesAndPullRequests (octokit context) _); reflexivity.
Qed.

(** X18.  Without an owner in the payload no search is made, whatever the
    watch settings are: the first target, or the default one, cannot be
    parsed, the error is logged and raised. *)
Theorem search_needs_owner (targets : ReposWatchSettings) :
  repository_owner context = None ->
  getOpenPullRequests context targets
  = ([Log Err MsgNoOwner],
     Rejected (Error "No repository owner has been found, the target cannot be parsed.")).
Proof.
  intros Ho. unfold getOpenPullRequests, searchFilter.
  destruct (monitor targets) as [|m0 rest]; cbn [length Nat.eqb app reduceTargets];
    unfold parseTarget; rewrite Ho; reflexivity.
Qed.

Lemma termsOfTarget_foreign (o sign target : string) :
  foreignTarget o target -> termsOfTarget sign o target = [].
Proof.
  intros [org [c [r [rest [Hs Hne]]]]]. unfold termsOfTarget. rewrite Hs.
  apply String.eqb_neq in Hne. rewrite Hne. reflexivity.
Qed.

(** X19.  When the monitor list holds only repositories of other
    organizations and the ignore list, too, every target is dropped and
    the search is made with no term that names an owner: the query is
    [is:pr is:open draft:false] alone. *)
Theorem all_foreign_targets_unscoped (o : string) (targets : ReposWatchSettings) :
  repository_owner context = Some o ->
  monitor targets <> [] ->
  Forall (foreignTarget o) (monitor targets) ->
  Forall (foreignTarget o) (ignore targets) ->
  searchFilter context targets = ret []
  /\ exists rest,
       fst (getOpenPullRequests context targets)
       = Request (SearchIssuesAndPullRequests "is:pr is:open draft:false ") :: rest.
Proof.
  intros Ho Hne Hm Hi.
  assert (Hnil : forall sign l, Forall (foreignTarget o) l ->
                                flat_map (termsOfTarget sign o) l = []).
  { intros sign l Hl. induction Hl as [|t l Ht _ IH]; [reflexivity|].
    cbn [flat_map]. rewrite (termsOfTarget_foreign o sign t Ht), IH. reflexivity. }
  assert (Hf : searchFilter context targets = ret []).
  { rewrite (searchFilter_run o targets Ho).
    destruct (monitor targets) as [|m0 ms0] eqn:Hmon; [congruence|].
    rewrite (Hnil EmptyString _ Hm), (Hnil "-" _ Hi). reflexivity. }
  split; [exact Hf|].
  unfold getOpenPullRequests. rewrite Hf. cbn [bind ret app join]. unfold await.
  cbn [tryCatch bind].
  destruct (search_issuesAndPullRequests (octokit context) _); eexists; reflexivity.
Qed.

(** ** More on the date of the last activity *)

Lemma in_eventDates activity t :
  In t (eventDates Date_parse activity)
  <-> exists event, In event activity /\ eventDate Date_parse event = Some t.
Proof.
  unfold eventDates. rewrite in_flat_map. split; intros [event [Hin H]]; exists event;
    (split; [exact Hin|]).
  - destruct (eventDate Date_parse event) as [t'|]; [|destruct H].
    destruct H as [<-|[]]. reflexivity.
  - rewrite H. left. reflexivity.
Qed.

(** X20.  When the date of the last activity is valid, it is the date of
    one of the events of the timeline, and no event has a later valid
    date. *)
Theorem lastActivity_is_latest activity m :
  maxDate (eventDates Date_parse activity) = Some m ->
  (exists event, In event activity /\ eventDate Date_parse event = Some m)
  /\ (forall event t,
        In event activity -> eventDate Date_parse event = Some t -> (t <= m)%Z).
Proof.
  unfold maxDate. destruct (eventDates Date_parse activity) as [|t0 ts] eqn:Hdates;
    [discriminate|].
  unfold TimeClip. destruct (Z.abs _ <=? _)%Z; [|discriminate].
  intros H. injection H as <-.
  destruct (fold_left_max_ge ts t0) as [H0 [Hall Hin]]. split.
  - apply in_eventDates. rewrite Hdates. exact Hin.
  - intros event t Hev Ht.
    assert (Hin' : In t (eventDates Date_parse activity))
      by (apply in_eventDates; eauto).
    rewrite Hdates in Hin'. destruct Hin' as [<-|Hin']; auto.
Qed.

(** X21.  A pull request is due exactly when the date of its last
    activity is invalid, or when the timeout is read by [ms], that date
    plus the timeout is a valid date, and it lies strictly before the
    clock. *)
Theorem isDue_exactly (d : Date) (offset : string) :
  isDue ms context d offset = Resolved true
  <-> d = None
      \/ exists t off,
           d = Some t /\ ms offset = Some off
           /\ (Z.abs (t + off) <= 8640000000000000)%Z
           /\ (t + off < Date_now context)%Z.
Proof.
  unfold isDue, isPastOffset. destruct d as [t|]; cbn [isNaN].
  - destruct (ms offset) as [off|].
    + unfold TimeClip. destruct (Z.abs (t + off) <=? 8640000000000000)%Z eqn:Hrange.
      * destruct (t + off <? Date_now context)%Z eqn:Hlt; split.
        -- intros _. right. exists t, off. apply Z.leb_le in Hrange.
           apply Z.ltb_lt in Hlt. auto.
        -- reflexivity.
        -- discriminate.
        -- intros [H|[t' [off' [H1 [H2 [_ H3]]]]]]; [discriminate|].
           injection H1 as <-. injection H2 as <-. apply Z.ltb_lt in H3. congruence.
      * split; [discriminate|].
        intros [H|[t' [off' [H1 [H2 [H3 _]]]]]]; [discriminate|].
        injection H1 as <-. injection H2 as <-. apply Z.leb_le in H3. congruence.
    + split; [discriminate|].
      intros [H|[t' [off' [_ [H2 _]]]]]; discriminate.
  - split; [auto|reflexivity].
Qed.

(** ** How often an item merges and deletes *)

Lemma decisionTrace_counts url p details last :
  count isMerge (decisionTrace context retryRejected url p details last) <= 1
  /\ count isDelete (decisionTrace context retryRejected url p details last) <= 1.
Proof.
  unfold decisionTrace.
  destruct (getApprovalCount_quiet p) as [Ham Had].
  destruct (isCiGreen_quiet (head_sha details) p) as [Hcm Hcd].
  rewrite !count_app, Ham, Had.
  destruct (snd (getApprovalCount context p)) as [n|e]; [|split; cbn; lia].
  destruct (requiredApprovalCount _ <=? Z.of_nat n)%Z; [|split; cbn; lia].
  rewrite !count_app, Hcm, Hcd.
  destruct (snd (isCiGreen context retryRejected (head_sha details) p))
    as [[[|]|]|e]; try (split; cbn; lia).
  unfold mergeTrace.
  destruct (pullRequest_delete context url) as [[]|e]; [|split; cbn; lia].
  destruct (pulls_merge (octokit context) p); split; cbn; lia.
Qed.

Lemma itemTrace_counts url :
  count isMerge (itemTrace Number URL_pathname Date_parse ms context retryRejected url)
  <= 1
  /\ count isDelete
       (itemTrace Number URL_pathname Date_parse ms context retryRejected url) <= 1.
Proof.
  unfold itemTrace.
  destruct (parseGitHubUrl Number URL_pathname url) as [p|e]; [|split; cbn; lia].
  destruct (pulls_get (octokit context) p) as [details|e]; [|split; cbn; lia].
  destruct (merged details || truthy (closed_at details)).
  { destruct (pullRequest_delete context url); split; cbn; lia. }
  destruct (getAllTimelineEvents context p) as [activity|e]; [|split; cbn; lia].
  cbv zeta. destruct (isDue ms context _ _) as [[|]|e]; try (split; cbn; lia).
  destruct (decisionTrace_counts url p details
              (maxDate (eventDates Date_parse activity))) as [Hm Hd].
  change (Request (PullsGet p) :: Log Debug (MsgProcessing url)
          :: Request (TimelineEvents p)
          :: Log Debug (MsgRequirements (author_association details)
                          (requirementsOf context (author_association details))
                          (maxDate (eventDates Date_parse activity)))
          :: decisionTrace context retryRejected url p details
               (maxDate (eventDates Date_parse activity)))
    with ([Request (PullsGet p); Log Debug (MsgProcessing url);
           Request (TimelineEvents p);
           Log Debug (MsgRequirements (author_association details)
                        (requirementsOf context (author_association details))
                        (maxDate (eventDates Date_parse activity)))]
          ++ decisionTrace context retryRejected url p details
               (maxDate (eventDates Date_parse activity))).
  rewrite !count_app. split; cbn [count filter isMerge isDelete length plus]; lia.
Qed.

Lemma count_flat_map_le (kind : event number -> bool) (f : string -> list (event number))
    (l : list string) :
  (forall url, count kind (f url) <= 1) -> count kind (flat_map f l) <= length l.
Proof.
  intros Hf. induction l as [|url rest IH]; [cbn; lia|].
  cbn [flat_map length]. rewrite count_app. specialize (Hf url). lia.
Qed.

(** X22.  One item calls the merge API at most once and the store at most
    once; a run over a tracked list makes at most as many merge calls, and
    as many delete requests, as the list has entries. *)
Theorem at_most_one_merge_per_item :
  (forall url,
     count isMerge (fst (processPullRequest Number URL_pathname Date_parse ms context
                                            retryRejected url)) <= 1
     /\ count isDelete (fst (processPullRequest Number URL_pathname Date_parse ms
                                                context retryRejected url)) <= 1)
  /\ (forall l,
        getRepositories context = Resolved (Some l) ->
        count isMerge (fst (updatePullRequests Number URL_pathname Date_parse ms
                                               context retryRejected)) <= length l
        /\ count isDelete (fst (updatePullRequests Number URL_pathname Date_parse ms
                                                   context retryRejected)) <= length l).
Proof.
  assert (Hitem : forall url,
     count isMerge (fst (processPullRequest Number URL_pathname Date_parse ms context
                                            retryRejected url)) <= 1
     /\ count isDelete (fst (processPullRequest Number URL_pathname Date_parse ms
                                                context retryRejected url)) <= 1).
  { intros url. rewrite processPullRequest_cases. apply itemTrace_counts. }
  split; [exact Hitem|].
  intros l Hl. rewrite updatePullRequests_cases, Hl.
  destruct l as [|u rest]; [split; cbn; lia|]. cbn [fst].
  set (items := flat_map _ (u :: rest)).
  change (Request (number := number) GetRepositories :: items)
    with ([Request GetRepositories] ++ items).
  rewrite !count_app.
  assert (Hm : count isMerge items <= length (u :: rest))
    by (apply count_flat_map_le; intros url; apply Hitem).
  assert (Hd : count isDelete items <= length (u :: rest))
    by (apply count_flat_map_le; intros url; apply Hitem).
  split; cbn [count filter isMerge isDelete length plus] in *; lia.
Qed.

End Properties.

(** * The properties at concrete inputs *)

Lemma parseGitHubUrl_segments_witness :
  examplePathname exampleUrl = Resolved "/OWNER/REPO/pull/42"
  /\ parseGitHubUrl exampleNumber examplePathname exampleUrl = Resolved exampleParams.
Proof.
  split; [reflexivity|].
  apply (proj2 (proj2 (parseGitHubUrl_segments (option Z) Some exampleNumber
                         examplePathname exampleUrl "/OWNER/REPO/pull/42" eq_refl)));
    reflexivity.
Defined.

Lemma checkLoop_verdict_witness :
  snd (checkLoop (readyContext (Resolved tt) (Resolved tt)) [greenRuns])
  = Resolved (Some true).
Proof.
  exact (proj1 (checkLoop_verdict (option Z) (readyContext (Resolved tt) (Resolved tt))
                  [greenRuns])).
Defined.

(** C4, as stated, fails: a run of the second suite is pending, and the
    attempt is not indeterminate, the failed run of the first suite having
    decided. *)
Lemma checkLoop_first_suite_decides :
  existsb pending (nonSelf "auto-merge" (concat twoSuites)) = true
  /\ verdictOverAllRuns "auto-merge" twoSuites = None
  /\ snd (checkLoop (readyContext (Resolved tt) (Resolved tt)) twoSuites)
     = Resolved (Some false).
Proof. repeat split; reflexivity. Qed.

Lemma parseTarget_foreign_dropped_witness :
  parseTarget (readyContext (Resolved tt) (Resolved tt)) "otherorg/repo" = ret None
  /\ searchFilter (readyContext (Resolved tt) (Resolved tt))
                  (mkWatch ["ubiquity/a"] ["otherorg/repo"])
     = searchFilter (readyContext (Resolved tt) (Resolved tt))
                    (mkWatch ["ubiquity/a"] [])
  /\ parseTarget (readyContext (Resolved tt) (Resolved tt)) "tools"
     = ret (Some (mkTarget "ubiquity" "tools")).
Proof.
  assert (Hne : "otherorg" <> "ubiquity") by discriminate.
  assert (Hrepo : "repo" <> EmptyString) by discriminate.
  destruct (parseTarget_foreign_dropped (option Z)
              (readyContext (Resolved tt) (Resolved tt)) "ubiquity" eq_refl)
    as [Hforeign Hbare].
  destruct (Hforeign "otherorg/repo" "otherorg" "repo" [] eq_refl Hrepo Hne)
    as [Hnull [_ [Hignore _]]].
  destruct (Hbare "tools" "tools" [] eq_refl (or_introl eq_refl)) as [Hkept _].
  split; [exact Hnull|]. split; [exact (Hignore ["ubiquity/a"] [] [])|exact Hkept].
Defined.

(** C5, as stated, fails for a target without a repository part: it is
    not parsed to null, and it adds a term to the filter, in the monitor
    list and in the ignore list. *)
Lemma parseTarget_bare_name_kept :
  "otherorg" <> "ubiquity"
  /\ parseTarget (readyContext (Resolved tt) (Resolved tt)) "otherorg"
     = ret (Some (mkTarget "ubiquity" "otherorg"))
  /\ searchFilter (readyContext (Resolved tt) (Resolved tt))
                  (mkWatch ["otherorg"] ["otherorg"])
     = ret ["repo:ubiquity/otherorg"; "-repo:ubiquity/otherorg"].
Proof. repeat split; (discriminate || reflexivity). Qed.



(** C3, as stated, fails: with check runs that stay pending, the hundred
    attempts are all indeterminate and the gate does not return the
    indeterminate value: after 99 waits it rejects with the error of
    ts-retry. *)
Lemma isCiGreen_exhausted_rejects :
  (forall k, snd (checkAttempt stuckContext oneSuite "OWNER" "REPO" k) = Resolved None)
  /\ snd (isCiGreen stuckContext false "abc123" exampleParams) = Rejected TooManyTries
  /\ snd (isCiGreen stuckContext false "abc123" exampleParams) <> Resolved None
  /\ count isWait (fst (isCiGreen stuckContext false "abc123" exampleParams)) = 99
  /\ snd (isCiGreen stuckContext true "abc123" exampleParams) = Rejected TooManyTries
  /\ count isWait (fst (isCiGreen stuckContext true "abc123" exampleParams)) = 99.
Proof.
  split; [intros k; reflexivity|].
  vm_compute. repeat split; discriminate.
Qed.

Lemma isCiGreen_polling_witness :
  snd (isCiGreen pollingContext false "abc123" exampleParams) = Resolved (Some true)
  /\ count isWait (fst (isCiGreen pollingContext false "abc123" exampleParams)) = 1.
Proof.
  apply (proj1 (proj2 (proj2 (proj2
           (isCiGreen_polling (option Z) false pollingContext "abc123" exampleParams
              oneSuite eq_refl)))) 2 true).
  - lia.
  - intros j Hj. assert (j = 1) as -> by lia. reflexivity.
  - reflexivity.
Defined.

(** C2: listing the check runs fails at every attempt, and the gate
    rejects with the error of the fetch, whether the retry loop tries
    again after a failure or not; no error is logged by the gate. *)
Theorem isCiGreen_raises_fetch_error :
  forall retryRejected : bool,
    snd (isCiGreen unreachableContext retryRejected "abc123" exampleParams)
    = Rejected networkError
    /\ count isErrorLog
         (fst (isCiGreen unreachableContext retryRejected "abc123" exampleParams)) = 0.
Proof. intros []; vm_compute; split; reflexivity. Qed.



Lemma merge_failure_keeps_deletion_witness :
  snd (processPullRequest exampleNumber examplePathname exampleDate_parse exampleMs
         (readyContext (Resolved tt) (Rejected networkError)) false exampleUrl)
  = Resolved tt
  /\ ~ In exampleUrl
         (trackedAfter
            (pullRequest_delete (readyContext (Resolved tt) (Rejected networkError)))
            (fst (processPullRequest exampleNumber examplePathname exampleDate_parse
                    exampleMs (readyContext (Resolved tt) (Rejected networkError))
                    false exampleUrl))
            [exampleUrl]).
Proof.
  assert (Hreq : (requiredApprovalCount
                    (requirementsOf (readyContext (Resolved tt) (Rejected networkError))
                                    (author_association exampleDetails))
                  <= Z.of_nat 2)%Z) by (simpl; lia).
  pose proof (merge_failure_keeps_deletion (option Z) exampleNumber examplePathname
                exampleDate_parse exampleMs false
                (readyContext (Resolved tt) (Rejected networkError))
                exampleUrl exampleParams exampleDetails oldActivity 2 networkError []
                eq_refl eq_refl eq_refl eq_refl eq_refl eq_refl eq_refl Hreq
                eq_refl eq_refl eq_refl) as [Hsettled [_ [Htracked _]]].
  split; [exact Hsettled | exact (Htracked [exampleUrl])].
Defined.

Lemma closed_pull_request_untracked_witness :
  count isMerge
    (fst (processPullRequest exampleNumber examplePathname exampleDate_parse exampleMs
            (exampleContext mergedDetails (Resolved tt) (Resolved tt)
                            (fun _ _ => Resolved greenRuns) oldActivity)
            false exampleUrl)) = 0.
Proof.
  exact (proj1 (proj2 (proj2
           (closed_pull_request_untracked (option Z) exampleNumber examplePathname
              exampleDate_parse exampleMs false
              (exampleContext mergedDetails (Resolved tt) (Resolved tt)
                              (fun _ _ => Resolved greenRuns) oldActivity)
              exampleUrl exampleParams mergedDetails eq_refl eq_refl eq_refl)))).
Defined.

Lemma no_timestamp_is_due_witness :
  In (Request (PullsListReviews exampleParams))
     (fst (processPullRequest exampleNumber examplePathname exampleDate_parse exampleMs
             (exampleContext exampleDetails (Resolved tt) (Resolved tt)
                (fun _ _ => Resolved greenRuns)
                [mkIssueEvent (Some "yesterday") None (Some EmptyString) None])
             false exampleUrl)).
Proof.
  refine (proj1 (proj2 (proj2 (proj2
            (no_timestamp_is_due (option Z) exampleNumber examplePathname
               exampleDate_parse exampleMs false
               (exampleContext exampleDetails (Resolved tt) (Resolved tt)
                  (fun _ _ => Resolved greenRuns)
                  [mkIssueEvent (Some "yesterday") None (Some EmptyString) None])
               exampleUrl exampleParams exampleDetails
               [mkIssueEvent (Some "yesterday") None (Some EmptyString) None]
               eq_refl eq_refl eq_refl eq_refl eq_refl eq_refl _))))).
  repeat constructor. simpl. intros s [H|[H|[H|[H|[]]]]]; inversion H; reflexivity.
Defined.

(** * More properties at concrete inputs *)

Ltac find_event := repeat (first [left; reflexivity | right]).

Lemma parseGitHubUrl_round_trip_witness :
  parseGitHubUrl exampleNumber examplePathname "https://example.org/acme/tools/issues/7"
  = Resolved (mkIssueParams "acme" "tools" (Some 7%Z)).
Proof.
  exact (parseGitHubUrl_round_trip (option Z) exampleNumber examplePathname
           "https://example.org/acme/tools/issues/7" "acme" "tools" "issues" "7"
           eq_refl eq_refl eq_refl eq_refl eq_refl).
Defined.

Lemma parseGitHubUrl_inversion_witness :
  exists lead kind n,
    examplePathname exampleUrl
    = Resolved (lead +++ "/" +++ "OWNER" +++ "/" +++ "REPO" +++ "/" +++ kind +++ "/" +++ n)
    /\ Some 42%Z = exampleNumber n.
Proof.
  destruct (parseGitHubUrl_inversion (option Z) exampleNumber examplePathname
              exampleUrl exampleParams eq_refl) as [lead [kind [n [Hpath [Hn _]]]]].
  exists lead, kind, n. split; [exact Hpath | exact Hn].
Defined.

Lemma listing_failure_closes_gate_witness :
  isCiGreen brokenApiContext true "abc123" exampleParams
  = ([Request (ChecksListSuitesForRef "OWNER" "REPO" "abc123");
      Log Err (MsgErrorCheckingCi networkError)], Resolved (Some false)).
Proof.
  exact (proj1 (listing_failure_closes_gate (option Z) true brokenApiContext "abc123"
                  exampleParams networkError eq_refl)).
Defined.

Lemma green_gate_had_green_attempt_witness :
  exists checkSuites k,
    checks_listSuitesForRef (octokit pollingContext) "OWNER" "REPO" "abc123"
    = Resolved checkSuites
    /\ 1 <= k <= 100
    /\ greenAt pollingContext checkSuites "OWNER" "REPO" k.
Proof.
  exact (green_gate_had_green_attempt (option Z) false pollingContext "abc123"
           exampleParams eq_refl).
Defined.

Lemma green_first_attempt_no_wait_witness :
  snd (isCiGreen noSuiteContext false "abc123" exampleParams) = Resolved (Some true)
  /\ count isWait (fst (isCiGreen noSuiteContext false "abc123" exampleParams)) = 0.
Proof.
  apply (green_first_attempt_no_wait (option Z) false noSuiteContext "abc123"
           exampleParams [] eq_refl).
  intros suite [].
Defined.

Lemma merge_only_when_ready_witness :
  readyToMerge exampleNumber examplePathname exampleDate_parse exampleMs
               (readyContext (Resolved tt) (Resolved tt)) false exampleUrl exampleParams
  /\ pullRequest_delete (readyContext (Resolved tt) (Resolved tt)) exampleUrl
     = Resolved tt.
Proof.
  apply (merge_only_when_ready (option Z) exampleNumber examplePathname
           exampleDate_parse exampleMs false (readyContext (Resolved tt) (Resolved tt))).
  vm_compute. find_event.
Defined.

Lemma delete_only_own_url_witness :
  exampleUrl = exampleUrl
  /\ (foundClosed exampleNumber examplePathname
                  (exampleContext mergedDetails (Resolved tt) (Resolved tt)
                                  (fun _ _ => Resolved greenRuns) oldActivity) exampleUrl
      \/ exists p,
           readyToMerge exampleNumber examplePathname exampleDate_parse exampleMs
             (exampleContext mergedDetails (Resolved tt) (Resolved tt)
                             (fun _ _ => Resolved greenRuns) oldActivity)
             false exampleUrl p).
Proof.
  apply (delete_only_own_url (option Z) exampleNumber examplePathname
           exampleDate_parse exampleMs false).
  vm_compute. find_event.
Defined.

Lemma gate_closed_leaves_store_alone_witness :
  trackedAfter (pullRequest_delete recentContext)
    (fst (processPullRequest exampleNumber examplePathname exampleDate_parse exampleMs
            recentContext false exampleUrl)) [exampleUrl]
  = [exampleUrl].
Proof.
  refine (proj2 (proj2 (gate_closed_leaves_store_alone (option Z) exampleNumber
                          examplePathname exampleDate_parse exampleMs false
                          recentContext exampleUrl _ _)) [exampleUrl]).
  - intros [p [details [_ [Hget Hclosed]]]]. simpl in Hget. injection Hget as <-.
    discriminate.
  - intros p [details [activity [n [_ [Hget [_ [Htimeline [Hdue _]]]]]]]].
    simpl in Hget, Htimeline. injection Hget as <-. injection Htimeline as <-.
    vm_compute in Hdue. discriminate.
Defined.

Lemma run_merges_only_ready_witness :
  exists l url,
    getRepositories (readyContext (Resolved tt) (Resolved tt)) = Resolved (Some l)
    /\ In url l
    /\ readyToMerge exampleNumber examplePathname exampleDate_parse exampleMs
         (readyContext (Resolved tt) (Resolved tt)) false url exampleParams
    /\ pullRequest_delete (readyContext (Resolved tt) (Resolved tt)) url = Resolved tt.
Proof.
  apply (run_merges_only_ready (option Z) exampleNumber examplePathname
           exampleDate_parse exampleMs false (readyContext (Resolved tt) (Resolved tt))).
  vm_compute. find_event.
Defined.

Lemma not_due_is_left_alone_witness :
  count isRequest
    (fst (processPullRequest exampleNumber examplePathname exampleDate_parse exampleMs
            recentContext false exampleUrl)) = 2.
Proof.
  rewrite (not_due_is_left_alone (option Z) exampleNumber examplePathname
             exampleDate_parse exampleMs false recentContext exampleUrl exampleParams
             contributorDetails oldActivity eq_refl eq_refl eq_refl eq_refl eq_refl).
  reflexivity.
Defined.

Lemma too_few_approvals_skip_ci_witness :
  count isCheckRequest
    (fst (processPullRequest exampleNumber examplePathname exampleDate_parse exampleMs
            strictContext false exampleUrl)) = 0.
Proof.
  assert (Hfew : (Z.of_nat 2
                  < requiredApprovalCount
                      (requirementsOf strictContext (author_association exampleDetails)))%Z)
    by (simpl; lia).
  exact (proj2 (proj2 (too_few_approvals_skip_ci (option Z) exampleNumber examplePathname
                         exampleDate_parse exampleMs false strictContext exampleUrl
                         exampleParams exampleDetails oldActivity 2
                         eq_refl eq_refl eq_refl eq_refl eq_refl eq_refl Hfew))).
Defined.

Lemma malformed_url_is_skipped_witness :
  processPullRequest exampleNumber examplePathname exampleDate_parse exampleMs
                     brokenApiContext false "https://host/OWNER/REPO"
  = ([Log Err (MsgCouldNotProcess "https://host/OWNER/REPO"
                 (Error "[parseGitHubUrl] Invalid url: [https://host/OWNER/REPO]"))],
     Resolved tt).
Proof.
  exact (malformed_url_is_skipped (option Z) exampleNumber examplePathname
           exampleDate_parse exampleMs false brokenApiContext
           "https://host/OWNER/REPO" _ eq_refl).
Defined.

Lemma invalid_timeout_is_caught_witness :
  snd (processPullRequest exampleNumber examplePathname exampleDate_parse exampleMs
         vagueContext false exampleUrl) = Resolved tt
  /\ count isRequest
       (fst (processPullRequest exampleNumber examplePathname exampleDate_parse
               exampleMs vagueContext false exampleUrl)) = 2.
Proof.
  rewrite (invalid_timeout_is_caught (option Z) exampleNumber examplePathname
             exampleDate_parse exampleMs false vagueContext exampleUrl exampleParams
             exampleDetails oldActivity 1704067200000%Z
             eq_refl eq_refl eq_refl eq_refl eq_refl eq_refl).
  split; reflexivity.
Defined.

Lemma search_is_owner_scoped_witness :
  exists filter,
    searchFilter (readyContext (Resolved tt) (Resolved tt))
                 (mkWatch ["tools"; "otherorg/x"] ["ubiquity/docs"]) = ret filter
    /\ Forall (ownerScoped "ubiquity") filter.
Proof.
  destruct (search_is_owner_scoped (option Z) (readyContext (Resolved tt) (Resolved tt))
              "ubiquity" (mkWatch ["tools"; "otherorg/x"] ["ubiquity/docs"]) eq_refl)
    as [filter [Hf [Hs _]]].
  exists filter. split; [exact Hf | exact Hs].
Defined.

Lemma search_needs_owner_witness :
  fst (getOpenPullRequests noOwnerContext (mkWatch ["ubiquity/docs"] []))
  = [Log Err MsgNoOwner].
Proof.
  rewrite (search_needs_owner (option Z) noOwnerContext (mkWatch ["ubiquity/docs"] [])
             eq_refl).
  reflexivity.
Defined.

Lemma all_foreign_targets_unscoped_witness :
  searchFilter (readyContext (Resolved tt) (Resolved tt)) (mkWatch ["otherorg/x"] [])
  = ret [].
Proof.
  assert (Hne : ["otherorg/x"] <> []) by discriminate.
  assert (Hforeign : Forall (foreignTarget "ubiquity") ["otherorg/x"]).
  { constructor; [|constructor]. exists "otherorg", "x"%char, EmptyString, [].
    split; [reflexivity|discriminate]. }
  exact (proj1 (all_foreign_targets_unscoped (option Z)
                  (readyContext (Resolved tt) (Resolved tt)) "ubiquity"
                  (mkWatch ["otherorg/x"] []) eq_refl Hne Hforeign (Forall_nil _))).
Defined.

Lemma lastActivity_is_latest_witness :
  exists event,
    In event oldActivity
    /\ eventDate exampleDate_parse event = Some 1704067200000%Z.
Proof.
  exact (proj1 (lastActivity_is_latest exampleDate_parse oldActivity 1704067200000%Z
                  eq_refl)).
Defined.
